(** * TagGUI main window: a shallow embedding of [main_window.py]

    The main window owns the image list model, the tag counter model, the
    image tag list model, the image viewer, the image list view with its
    selection model, the tags editor and the settings store, and wires their
    signals together.  The embedding threads one [State] record through a
    small state-and-exception monad; a run also yields the trace of the
    calls that reached a collaborator, so that statements about the order
    of effects can be read off it. *)

From Stdlib Require Import ZArith Ascii String List Lia.
From stdpp Require Import base option list gmap gmultiset strings fin_maps.
Import ListNotations.
Local Open Scope Z_scope.
Local Open Scope string_scope.
Local Open Scope list_scope.

(** ** Data model *)

(** An image entry: the file path and the ordered tag sequence. *)
Record Image := mkImage { image_path : string; image_tags : list string }.

(** [pathlib.Path], reduced to the text that [str(path)] returns. *)
Record Path := mkPath { path_str : string }.

(** A value held by the settings store.  [QSettings] stores variants; the
    program stores a row number, a path text and two byte arrays. *)
Inductive SVal :=
| VInt (z : Z)
| VStr (s : string)
| VBytes (b : string).

(** A [QModelIndex] of the one-column image list: invalid, or a row. *)
Inductive QModelIndex :=
| InvalidIndex
| RowIndex (r : nat).

(** [QModelIndex.row()]: the row, and -1 for the invalid index. *)
Definition row (i : QModelIndex) : Z :=
  match i with
  | InvalidIndex => -1
  | RowIndex r => Z.of_nat r
  end.

(** The two pages of the central stacked widget, in the order in which
    [create_central_widget] adds them. *)
Inductive Panel := LoadDirectoryPanel | ImageViewerPanel.

(** The three signals of the image tag list model that [__init__] connects. *)
Inductive TagSignal := DataChanged | RowsRemoved | RowsMoved.

(** Python exceptions that the modelled code can raise. *)
Inductive Exn := TypeError | ValueError | IndexError | OverflowError.

(** The collaborators' calls, as they are logged. *)
Inductive Effect :=
| SettingsContains (key : string) (present : bool)
| SettingsValue (key : string)
| SettingsSetValue (key : string) (v : SVal)
| ModelLoadDirectory (p : Path)
| ImageListDataChanged
| CountTags
| ModelUpdateTags (i : QModelIndex) (tags : list string)
| TagListEmit (sig : TagSignal)
| SetStringList (tags : list string)
| ClearCurrentIndex
| SetCurrentIndex (i : QModelIndex)
| CurrentChanged (i : QModelIndex)
| ViewerLoadImage (i : QModelIndex)
| EditorLoadImageTags (i : QModelIndex)
| SetCurrentWidget (w : Panel)
| SaveGeometry
| SaveState
| RestoreGeometry (v : option SVal)
| RestoreState (v : option SVal)
| ShowMaximized
| GetExistingDirectory (dir : option SVal) (chosen : string)
| SetFont (point_size : Z)
| BaseCloseEvent.

#[global] Instance SVal_eq_dec : EqDecision SVal.
Proof. solve_decision. Defined.
#[global] Instance QModelIndex_eq_dec : EqDecision QModelIndex.
Proof. solve_decision. Defined.
#[global] Instance Panel_eq_dec : EqDecision Panel.
Proof. solve_decision. Defined.
#[global] Instance TagSignal_eq_dec : EqDecision TagSignal.
Proof. solve_decision. Defined.
#[global] Instance Path_eq_dec : EqDecision Path.
Proof. solve_decision. Defined.
#[global] Instance Effect_eq_dec : EqDecision Effect.
Proof. solve_decision. Defined.

(** The state of the main window and of everything it owns. *)
Record State := mkState {
  settings : gmap string SVal;          (* self.settings *)
  images : list Image;                  (* self.image_list_model.images *)
  tag_counts : gmap string nat;         (* self.tag_counter_model *)
  tag_list : list string;               (* self.image_tag_list_model.stringList() *)
  current : QModelIndex;                (* self.image_list_selection_model.currentIndex() *)
  editor_image_index : QModelIndex;     (* self.image_tags_editor.image_index *)
  viewer_image : option Image;          (* what self.image_viewer shows *)
  central : Panel;                      (* self.centralWidget().currentWidget() *)
  geometry : string;                    (* what self.saveGeometry() returns *)
  window_state : string;                (* what self.saveState() returns *)
  maximized : bool;
  font_point_size : Z;                  (* self.app.font().pointSize() *)
  closed : bool
}.

Definition set_settings (f : gmap string SVal → gmap string SVal) (s : State) : State :=
  mkState (f (settings s)) (images s) (tag_counts s) (tag_list s) (current s)
    (editor_image_index s) (viewer_image s) (central s) (geometry s)
    (window_state s) (maximized s) (font_point_size s) (closed s).
Definition set_images (v : list Image) (s : State) : State :=
  mkState (settings s) v (tag_counts s) (tag_list s) (current s)
    (editor_image_index s) (viewer_image s) (central s) (geometry s)
    (window_state s) (maximized s) (font_point_size s) (closed s).
Definition set_tag_counts (v : gmap string nat) (s : State) : State :=
  mkState (settings s) (images s) v (tag_list s) (current s)
    (editor_image_index s) (viewer_image s) (central s) (geometry s)
    (window_state s) (maximized s) (font_point_size s) (closed s).
Definition set_tag_list (v : list string) (s : State) : State :=
  mkState (settings s) (images s) (tag_counts s) v (current s)
    (editor_image_index s) (viewer_image s) (central s) (geometry s)
    (window_state s) (maximized s) (font_point_size s) (closed s).
Definition set_current (v : QModelIndex) (s : State) : State :=
  mkState (settings s) (images s) (tag_counts s) (tag_list s) v
    (editor_image_index s) (viewer_image s) (central s) (geometry s)
    (window_state s) (maximized s) (font_point_size s) (closed s).
Definition set_editor_image_index (v : QModelIndex) (s : State) : State :=
  mkState (settings s) (images s) (tag_counts s) (tag_list s) (current s)
    v (viewer_image s) (central s) (geometry s)
    (window_state s) (maximized s) (font_point_size s) (closed s).
Definition set_viewer_image (v : option Image) (s : State) : State :=
  mkState (settings s) (images s) (tag_counts s) (tag_list s) (current s)
    (editor_image_index s) v (central s) (geometry s)
    (window_state s) (maximized s) (font_point_size s) (closed s).
Definition set_central (v : Panel) (s : State) : State :=
  mkState (settings s) (images s) (tag_counts s) (tag_list s) (current s)
    (editor_image_index s) (viewer_image s) v (geometry s)
    (window_state s) (maximized s) (font_point_size s) (closed s).
Definition set_geometry (v : string) (s : State) : State :=
  mkState (settings s) (images s) (tag_counts s) (tag_list s) (current s)
    (editor_image_index s) (viewer_image s) (central s) v
    (window_state s) (maximized s) (font_point_size s) (closed s).
Definition set_window_state (v : string) (s : State) : State :=
  mkState (settings s) (images s) (tag_counts s) (tag_list s) (current s)
    (editor_image_index s) (viewer_image s) (central s) (geometry s)
    v (maximized s) (font_point_size s) (closed s).
Definition set_maximized (v : bool) (s : State) : State :=
  mkState (settings s) (images s) (tag_counts s) (tag_list s) (current s)
    (editor_image_index s) (viewer_image s) (central s) (geometry s)
    (window_state s) v (font_point_size s) (closed s).
Definition set_font_point_size (v : Z) (s : State) : State :=
  mkState (settings s) (images s) (tag_counts s) (tag_list s) (current s)
    (editor_image_index s) (viewer_image s) (central s) (geometry s)
    (window_state s) (maximized s) v (closed s).
Definition set_closed (v : bool) (s : State) : State :=
  mkState (settings s) (images s) (tag_counts s) (tag_list s) (current s)
    (editor_image_index s) (viewer_image s) (central s) (geometry s)
    (window_state s) (maximized s) (font_point_size s) v.

(** ** The monad: state that survives a raised exception, and a trace *)

Inductive Result (A : Type) :=
| Ok (a : A)
| Raise (e : Exn).
Arguments Ok {A} a.
Arguments Raise {A} e.

(** A computation yields its result, the state it leaves and the trace of
    its effects, oldest first. *)
Definition M (A : Type) : Type := State → Result A * State * list Effect.

Definition ret {A} (a : A) : M A := λ s, (Ok a, s, []).
Definition raise {A} (e : Exn) : M A := λ s, (Raise e, s, []).
Definition bind {A B} (m : M A) (k : A → M B) : M B :=
  λ s, match m s with
       | (Ok a, s', l) =>
           match k a s' with
           | (r, s'', l') => (r, s'', l ++ l')
           end
       | (Raise e, s', l) => (Raise e, s', l)
       end.
Definition modify (f : State → State) : M unit := λ s, (Ok tt, f s, []).
Definition gets {A} (f : State → A) : M A := λ s, (Ok (f s), s, []).
Definition log (e : Effect) : M unit := λ s, (Ok tt, s, [e]).
Definition lift {A} (r : Result A) : M A := λ s, (r, s, []).

Declare Scope py_scope.
Delimit Scope py_scope with py.
Notation "'let*' x ':=' m 'in' k" := (bind m (λ x, k))
  (at level 10, x name, m at level 100, k at level 200) : py_scope.
Notation "m ;; k" := (bind m (λ _, k))
  (at level 100, k at level 200, right associativity) : py_scope.
Local Open Scope py_scope.

(** Runs the slots connected to a signal, in connection order. *)
Fixpoint emit {A} (slots : list (A → M unit)) (arg : A) : M unit :=
  match slots with
  | [] => ret tt
  | slot :: rest => slot arg ;; emit rest arg
  end.

Definition outcome {A} (m : M A) (s : State) : Result A := (m s).1.1.
Definition run {A} (m : M A) (s : State) : State := (m s).1.2.
Definition trace {A} (m : M A) (s : State) : list Effect := (m s).2.
Definition raises {A} (m : M A) (s : State) : Prop :=
  ∃ e, outcome m s = Raise e.

(** ** What lies outside the program *)

(** The builtins and toolkit formats the window relies on.  They are taken
    as given: every property below holds whatever they are. *)
Record Platform := mkPlatform {
  (* [int(s)] for a [str]: the integer, or none when it raises [ValueError] *)
  int_of_text : string → option Z;
  (* [int(b)] for a byte array, likewise *)
  int_of_bytes : string → option Z;
  (* for the bytes handed to [restoreGeometry]: none when the toolkit does
     not accept them as a saved geometry, else the maximized flag saved in
     them *)
  geometry_flag : string → option bool;
  (* whether the toolkit accepts the bytes handed to [restoreState] *)
  state_accepted : string → bool;
  (* what [saveGeometry] returns once a window, whose [saveGeometry]
     returned the argument, has been shown maximized *)
  shown_maximized : string → string
}.

(** The values that pass from Python to a C [int] parameter of the toolkit;
    any other one raises [OverflowError]. *)
Definition in_c_int (z : Z) : Prop := (-2147483648 ≤ z ≤ 2147483647)%Z.

#[global] Instance in_c_int_dec (z : Z) : Decision (in_c_int z).
Proof. unfold in_c_int. apply _. Defined.

(** ** An integer reader for concrete runs *)

Definition is_space (a : ascii) : bool :=
  let n := N_of_ascii a in
  ((9 <=? n)%N && (n <=? 13)%N) || ((28 <=? n)%N && (n <=? 32)%N).

Definition digit_val (a : ascii) : option Z :=
  let n := N_of_ascii a in
  if ((48 <=? n)%N && (n <=? 57)%N) then Some (Z.of_N n - 48) else None.

Fixpoint lstrip (l : list ascii) : list ascii :=
  match l with
  | c :: r => if is_space c then lstrip r else l
  | [] => []
  end.

Definition strip (l : list ascii) : list ascii :=
  rev (lstrip (rev (lstrip l))).

(** Decimal digits, where a single underscore may stand between two
    digits. *)
Fixpoint digits_acc (acc : Z) (after_digit : bool) (l : list ascii) : option Z :=
  match l with
  | [] => if after_digit then Some acc else None
  | c :: r =>
      match digit_val c with
      | Some d => digits_acc (acc * 10 + d) true r
      | None =>
          if Ascii.eqb c "_"%char && after_digit then digits_acc acc false r
          else None
      end
  end.

(** Surrounding white space, an optional sign, and ASCII decimal digits:
    what [int(s)] reads in a text of ASCII characters. *)
Definition int_of_str (s : string) : option Z :=
  match strip (list_ascii_of_string s) with
  | c :: r =>
      if Ascii.eqb c "-"%char then Z.opp <$> digits_acc 0 false r
      else if Ascii.eqb c "+"%char then digits_acc 0 false r
      else digits_acc 0 false (c :: r)
  | [] => None
  end.

(** ** Python's [int] on a settings value *)

(** [int(v)] where [v] is what [settings.value(key)] returned: [None] for an
    absent key ([TypeError]), an [int], or a [str] or a byte array
    ([ValueError] when [int] does not read it). *)
Definition py_int (pf : Platform) (v : option SVal) : Result Z :=
  match v with
  | None => Raise TypeError
  | Some (VInt z) => Ok z
  | Some (VStr s) =>
      match int_of_text pf s with
      | Some z => Ok z
      | None => Raise ValueError
      end
  | Some (VBytes b) =>
      match int_of_bytes pf b with
      | Some z => Ok z
      | None => Raise ValueError
      end
  end.

(** [QFont.setPointSize(z)] on a font of point size [size]: a size that is
    no C [int] raises [OverflowError], a size of 0 or less is ignored. *)
Definition setPointSize (size z : Z) : Result Z :=
  if decide (in_c_int z) then Ok (if decide (0 < z) then z else size)
  else Raise OverflowError.

(** ** Tag counting *)

(** One more occurrence of tag [t]. *)
Definition add_tag_count (c : gmap string nat) (t : string) : gmap string nat :=
  <[t := S (default 0%nat (c !! t))]> c.

(** Modelled from the spec: [TagCounterModel.count_tags] (tag_counter_model.py
    is not among the sources).  The tag count table maps a tag to its number
    of occurrences across all images and is built from nothing by one pass
    over every tag of every image. *)
Definition count_tags (imgs : list Image) : gmap string nat :=
  foldl add_tag_count ∅ (concat (map image_tags imgs)).

(** The multiset union of the tag lists of all images: the wording of the
    spec, against which [count_tags] is compared. *)
Definition tags_multiset (imgs : list Image) : gmultiset string :=
  foldr (λ im acc, list_to_set_disj (image_tags im) ⊎ acc) ∅ imgs.

(** The table entry of a tag that occurs [n] times: a tag that does not occur
    has no entry. *)
Definition entry (n : nat) : option nat :=
  match n with
  | O => None
  | S _ => Some n
  end.

(** The tags of the entry that an index addresses; none without an entry. *)
Definition tags_at (imgs : list Image) (i : QModelIndex) : list string :=
  match i with
  | InvalidIndex => []
  | RowIndex r => default [] (image_tags <$> imgs !! r)
  end.

Definition image_at (imgs : list Image) (i : QModelIndex) : option Image :=
  match i with
  | InvalidIndex => None
  | RowIndex r => imgs !! r
  end.

(** The index of row [k] in the model: a valid index exactly for the rows
    the model has; a row is a C [int]. *)
Definition model_index (imgs : list Image) (k : Z) : QModelIndex :=
  if decide (0 ≤ k < Z.of_nat (length imgs) ∧ in_c_int k)
  then RowIndex (Z.to_nat k)
  else InvalidIndex.

(** [QAbstractListModel.index(row)] called from Python: a [row] that is no
    C [int] raises [OverflowError]. *)
Definition model_index_call (imgs : list Image) (k : Z) : Result QModelIndex :=
  if decide (in_c_int k) then Ok (model_index imgs k)
  else Raise OverflowError.

(** Modelled from the spec: the edits of the image tag list model
    (image_tag_list_model.py is not among the sources), one per notification
    the model has: adding a tag and changing one are data changes, the
    others are a row removal and a row move. *)
Inductive TagEdit :=
| AddTag (t : string)
| SetTag (pos : nat) (t : string)
| RemoveRow (pos : nat)
| MoveRow (src dst : nat).

Definition edit_signal (e : TagEdit) : TagSignal :=
  match e with
  | AddTag _ | SetTag _ _ => DataChanged
  | RemoveRow _ => RowsRemoved
  | MoveRow _ _ => RowsMoved
  end.

Definition apply_edit (e : TagEdit) (l : list string) : list string :=
  match e with
  | AddTag t => l ++ [t]
  | SetTag pos t => <[pos := t]> l
  | RemoveRow pos => delete pos l
  | MoveRow src dst =>
      match l !! src with
      | Some t => take dst (delete src l) ++ t :: drop dst (delete src l)
      | None => l
      end
  end.

Section MainWindow.

(** The builtins and toolkit formats. *)
Variable pf : Platform.
(** What a directory holds when it is scanned: one entry per image file,
    with the tags stored for it. *)
Variable scan_directory : Path → list Image.
(** The directory the user picks in the dialog opened at a given initial
    directory; the empty text when the dialog is cancelled. *)
Variable choose_directory : option SVal → string.
(** The normal form [pathlib] gives a path text. *)
Variable normalize : string → string.

(** *** Settings store: [contains], [value], [setValue] *)

Definition settings_contains (key : string) : M bool :=
  let* present := gets (λ s, bool_decide (is_Some (settings s !! key))) in
  log (SettingsContains key present) ;;
  ret present.

Definition settings_value (key : string) : M (option SVal) :=
  log (SettingsValue key) ;;
  gets (λ s, settings s !! key).

Definition settings_setValue (key : string) (v : SVal) : M unit :=
  log (SettingsSetValue key v) ;;
  modify (set_settings (insert key v)).

(** [Path(v)] for a value read from the settings. *)
Definition Path_of (v : option SVal) : Result Path :=
  match v with
  | Some (VStr s) => Ok (mkPath (normalize s))
  | _ => Raise TypeError
  end.

(** *** Slots connected in [__init__] *)

(** [lambda: self.tag_counter_model.count_tags(self.image_list_model.images)] *)
Definition recount_slot (_ : unit) : M unit :=
  log CountTags ;;
  let* imgs := gets images in
  modify (set_tag_counts (count_tags imgs)).

(** [self.image_list_model.dataChanged.connect(...)] *)
Definition image_list_dataChanged_slots : list (unit → M unit) :=
  [recount_slot].

Definition image_list_dataChanged : M unit :=
  log ImageListDataChanged ;;
  emit image_list_dataChanged_slots tt.

(** Modelled from the spec: [ImageListModel.load_directory] (image_list.py
    is not among the sources).  The image list is rebuilt from scratch
    from the directory, and the mutation is followed by the model's change
    notification. *)
Definition model_load_directory (p : Path) : M unit :=
  log (ModelLoadDirectory p) ;;
  modify (set_images (scan_directory p)) ;;
  image_list_dataChanged.

(** Modelled from the spec: [ImageListModel.update_tags] (image_list.py is
    not among the sources).  The tags of the entry at the index are
    replaced and the change notification follows.  The spec names no
    behaviour for an index without an entry; it is an error here. *)
Definition model_update_tags (i : QModelIndex) (tags : list string) : M unit :=
  log (ModelUpdateTags i tags) ;;
  let* imgs := gets images in
  match image_at imgs i, i with
  | Some im, RowIndex r =>
      modify (set_images (<[r := mkImage (image_path im) tags]> imgs)) ;;
      image_list_dataChanged
  | _, _ => raise IndexError
  end.

(** [update_image_list_model_tags] *)
Definition update_image_list_model_tags (_ : unit) : M unit :=
  let* i := gets editor_image_index in
  let* tags := gets tag_list in
  model_update_tags i tags.

(** [self.image_tag_list_model.dataChanged / rowsRemoved / rowsMoved
    .connect(self.update_image_list_model_tags)] *)
Definition tag_list_slots (sig : TagSignal) : list (unit → M unit) :=
  match sig with
  | DataChanged => [update_image_list_model_tags]
  | RowsRemoved => [update_image_list_model_tags]
  | RowsMoved => [update_image_list_model_tags]
  end.

(** Modelled from the spec: an edit of the image tag list model
    (image_tag_list_model.py is not among the sources): the sequence is
    changed and the notification of the edit's kind is emitted. *)
Definition tag_list_edit (e : TagEdit) : M unit :=
  modify (λ s, set_tag_list (apply_edit e (tag_list s)) s) ;;
  log (TagListEmit (edit_signal e)) ;;
  emit (tag_list_slots (edit_signal e)) tt.

(** Modelled from the spec: [ImageViewer.load_image] (image_viewer.py is
    not among the sources): the viewer shows the image at the index. *)
Definition load_image (i : QModelIndex) : M unit :=
  log (ViewerLoadImage i) ;;
  let* imgs := gets images in
  modify (set_viewer_image (image_at imgs i)).

(** Modelled from the spec: [ImageTagsEditor.load_image_tags]
    (image_tags_editor.py is not among the sources): the editor records
    the index and sets the image tag list model to the tags of the entry
    at that index, to the empty sequence when the index is invalid.
    Setting the whole sequence is none of the three connected
    notifications. *)
Definition load_image_tags (i : QModelIndex) : M unit :=
  log (EditorLoadImageTags i) ;;
  modify (set_editor_image_index i) ;;
  let* imgs := gets images in
  log (SetStringList (tags_at imgs i)) ;;
  modify (set_tag_list (tags_at imgs i)).

(** [lambda index: self.settings.setValue('image_index', index.row())] *)
Definition image_index_slot (i : QModelIndex) : M unit :=
  settings_setValue "image_index" (VInt (row i)).

(** [self.image_list_selection_model.currentChanged.connect(...)], three
    times, in this order. *)
Definition currentChanged_slots : list (QModelIndex → M unit) :=
  [load_image; load_image_tags; image_index_slot].

Definition currentChanged (i : QModelIndex) : M unit :=
  log (CurrentChanged i) ;;
  emit currentChanged_slots i.

(** *** Selection model *)

(** [QItemSelectionModel.clearCurrentIndex]: the current index becomes
    invalid; [currentChanged] is emitted when it was valid. *)
Definition clearCurrentIndex : M unit :=
  log ClearCurrentIndex ;;
  let* previous := gets current in
  modify (set_current InvalidIndex) ;;
  match previous with
  | RowIndex _ => currentChanged InvalidIndex
  | InvalidIndex => ret tt
  end.

(** [QAbstractItemView.setCurrentIndex]: nothing is emitted when the index
    is the current one already. *)
Definition setCurrentIndex (i : QModelIndex) : M unit :=
  log (SetCurrentIndex i) ;;
  let* previous := gets current in
  if decide (i = previous) then ret tt
  else modify (set_current i) ;; currentChanged i.

(** *** Window calls of the toolkit *)

Definition saveGeometry : M SVal :=
  log SaveGeometry ;; gets (λ s, VBytes (geometry s)).
Definition saveState : M SVal :=
  log SaveState ;; gets (λ s, VBytes (window_state s)).
(** [restoreGeometry(v)]: bytes the toolkit accepts become the geometry
    and bring their maximized flag; other bytes and [None] change nothing;
    a text or a number raises [TypeError]. *)
Definition restoreGeometry (v : option SVal) : M unit :=
  log (RestoreGeometry v) ;;
  match v with
  | Some (VBytes b) =>
      match geometry_flag pf b with
      | Some m => modify (λ s, set_maximized m (set_geometry b s))
      | None => ret tt
      end
  | Some (VInt _) | Some (VStr _) => raise TypeError
  | None => ret tt
  end.
(** [restoreState(v)], likewise. *)
Definition restoreState (v : option SVal) : M unit :=
  log (RestoreState v) ;;
  match v with
  | Some (VBytes b) =>
      if state_accepted pf b then modify (set_window_state b) else ret tt
  | Some (VInt _) | Some (VStr _) => raise TypeError
  | None => ret tt
  end.
Definition showMaximized : M unit :=
  log ShowMaximized ;;
  modify (λ s, set_maximized true
                 (set_geometry (shown_maximized pf (geometry s)) s)).
Definition setCurrentWidget (w : Panel) : M unit :=
  log (SetCurrentWidget w) ;; modify (set_central w).
Definition base_closeEvent : M unit :=
  log BaseCloseEvent ;; modify (set_closed true).
Definition getExistingDirectory (dir : option SVal) : M string :=
  log (GetExistingDirectory dir (choose_directory dir)) ;;
  ret (choose_directory dir).

(** *** [MainWindow] *)

Definition closeEvent : M unit :=
  let* g := saveGeometry in
  settings_setValue "geometry" g ;;
  let* w := saveState in
  settings_setValue "window_state" w ;;
  base_closeEvent.

Definition load_directory (path : Path) (select_index : Z) : M unit :=
  settings_setValue "directory_path" (VStr (path_str path)) ;;
  model_load_directory path ;;
  clearCurrentIndex ;;
  (let* imgs := gets images in
   let* index := lift (model_index_call imgs select_index) in
   setCurrentIndex index) ;;
  setCurrentWidget ImageViewerPanel.

Definition select_and_load_directory : M unit :=
  let* has_path := settings_contains "directory_path" in
  let* initial_directory_path :=
    (if has_path then settings_value "directory_path"
     else ret (Some (VStr ""))) in
  let* load_directory_path := getExistingDirectory initial_directory_path in
  if decide (load_directory_path = "") then ret tt
  else load_directory (mkPath (normalize load_directory_path)) 0.

Definition set_font_size : M unit :=
  let* size := gets font_point_size in
  let* v := settings_value "font_size" in
  let* font_size := lift (py_int pf v) in
  let* new_size := lift (setPointSize size font_size) in
  log (SetFont new_size) ;;
  modify (set_font_point_size new_size).

Definition restore : M unit :=
  let* has_geometry := settings_contains "geometry" in
  (if has_geometry then
     let* v := settings_value "geometry" in restoreGeometry v
   else showMaximized) ;;
  (let* v := settings_value "window_state" in restoreState v) ;;
  let* has_index := settings_contains "image_index" in
  let* image_index :=
    (if has_index then
       let* v := settings_value "image_index" in lift (py_int pf v)
     else ret 0) in
  let* has_path := settings_contains "directory_path" in
  (if has_path then
     let* v := settings_value "directory_path" in
     let* path := lift (Path_of v) in
     load_directory path image_index
   else ret tt) ;;
  set_font_size.

End MainWindow.

(** ** The window as a state machine *)

(** The window as [__init__] leaves it just before it calls [restore]:
    empty models, nothing selected, the first page of the central widget
    shown, and the settings store as the last session left it. *)
Definition fresh_window (stored : gmap string SVal) (g w : string) (pt : Z) : State :=
  mkState stored [] ∅ [] InvalidIndex InvalidIndex None LoadDirectoryPanel
    g w false pt false.

(** What the event loop dispatches to the window and its children. *)
Inductive Event :=
| SelectsRow (k : Z)          (* the list view makes row [k] current *)
| EditsTags (e : TagEdit)     (* an edit in the tags editor *)
| LoadsDirectory              (* the menu command or the button *)
| AppliesFontSize             (* the [set_font_size] slot *)
| Closes.                     (* the close event *)

Definition handle (pf : Platform) (scan_directory : Path → list Image)
    (choose_directory : option SVal → string) (normalize : string → string)
    (ev : Event) : M unit :=
  match ev with
  | SelectsRow k =>
      let* imgs := gets images in setCurrentIndex (model_index imgs k)
  | EditsTags e => tag_list_edit e
  | LoadsDirectory =>
      select_and_load_directory scan_directory choose_directory normalize
  | AppliesFontSize => set_font_size pf
  | Closes => closeEvent
  end.

(** An edit of the tags of the selected image: an image is selected. *)
Definition enabled (s : State) (ev : Event) : Prop :=
  match ev with
  | EditsTags _ => is_Some (image_at (images s) (current s))
  | _ => True
  end.

(** The states of a window whose construction succeeded, after any number
    of events of any kind, tag edits with nothing selected included.  The
    directory contents and the user's answers may differ from one event to
    the next. *)
Inductive reachable : State → Prop :=
| reachable_start pf scan_directory normalize stored g w pt :
    outcome (restore pf scan_directory normalize) (fresh_window stored g w pt)
    = Ok tt →
    reachable (run (restore pf scan_directory normalize)
                 (fresh_window stored g w pt))
| reachable_event pf scan_directory choose_directory normalize s ev :
    reachable s →
    reachable (run (handle pf scan_directory choose_directory normalize ev) s).

(** The image tag list model and the editor's recorded index agree with the
    selection: the tags of the selected image, none when nothing is
    selected. *)
Definition tags_in_sync (s : State) : Prop :=
  editor_image_index s = current s
  ∧ tag_list s = tags_at (images s) (current s).

(** What holds of the tag list whatever is edited: the editor's recorded
    index is the current index, and while an image is selected the image
    tag list model holds exactly the tags of that image. *)
Definition tags_follow_selection (s : State) : Prop :=
  editor_image_index s = current s
  ∧ ∀ r, current s = RowIndex r →
         ∃ im, images s !! r = Some im ∧ tag_list s = image_tags im.

(** The current index is one the model gives for its row. *)
Definition selection_in_model (s : State) : Prop :=
  ∀ r, current s = RowIndex r →
       model_index (images s) (Z.of_nat r) = RowIndex r.

(** The two facts that every reachable state has. *)
Definition window_invariant (s : State) : Prop :=
  tags_follow_selection s ∧ selection_in_model s.

(** The state the three slots of [currentChanged] leave for index [i]. *)
Definition selected (i : QModelIndex) (s : State) : State :=
  set_settings (insert "image_index" (VInt (row i)))
    (set_tag_list (tags_at (images s) i)
       (set_editor_image_index i
          (set_viewer_image (image_at (images s) i) s))).

(** The trace of one emission of [currentChanged]. *)
Definition changed_trace (imgs : list Image) (i : QModelIndex) : list Effect :=
  [CurrentChanged i; ViewerLoadImage i; EditorLoadImageTags i;
   SetStringList (tags_at imgs i);
   SettingsSetValue "image_index" (VInt (row i))].

(** The trace of the slots that an operation of the selection model runs:
    none when [currentChanged] is not emitted. *)
Definition slots_trace (emitted : bool) (imgs : list Image) (i : QModelIndex) :
    list Effect :=
  if emitted then changed_trace imgs i else [].

Definition is_valid (i : QModelIndex) : bool :=
  match i with
  | RowIndex _ => true
  | InvalidIndex => false
  end.

(** The state [clearCurrentIndex] leaves. *)
Definition cleared (s : State) : State :=
  if is_valid (current s) then selected InvalidIndex (set_current InvalidIndex s)
  else set_current InvalidIndex s.

(** The state [setCurrentIndex i] leaves. *)
Definition made_current (i : QModelIndex) (s : State) : State :=
  if decide (i = current s) then s else selected i (set_current i s).

(** The state in which [load_directory] starts to move the selection: the
    path stored, the image list replaced by [imgs], the tags counted. *)
Definition loaded (p : Path) (imgs : list Image) (s : State) : State :=
  set_tag_counts (count_tags imgs)
    (set_images imgs
       (set_settings (insert "directory_path" (VStr (path_str p))) s)).

(** The trace of [load_directory] from a state whose current index is
    [previous], when the directory holds [imgs] and the target is [k]. *)
Definition load_directory_trace (p : Path) (imgs : list Image) (k : Z)
    (previous : QModelIndex) : list Effect :=
  [SettingsSetValue "directory_path" (VStr (path_str p));
   ModelLoadDirectory p; ImageListDataChanged; CountTags;
   ClearCurrentIndex]
  ++ slots_trace (is_valid previous) imgs InvalidIndex
  ++ (if decide (in_c_int k) then
        [SetCurrentIndex (model_index imgs k)]
        ++ slots_trace (is_valid (model_index imgs k)) imgs (model_index imgs k)
        ++ [SetCurrentWidget ImageViewerPanel]
      else []).

(** How [load_directory] ends: [index] raises for a target that is no C
    [int]. *)
Definition load_directory_outcome (k : Z) : Result unit :=
  if decide (in_c_int k) then Ok tt else Raise OverflowError.

(** The state [load_directory] leaves from a state [s] in which the
    selection has been cleared already. *)
Definition target_selected (imgs : list Image) (k : Z) (s : State) : State :=
  if decide (in_c_int k)
  then set_central ImageViewerPanel (made_current (model_index imgs k) s)
  else s.

(** The initial directory that [select_and_load_directory] hands to the
    dialog: the stored path when there is one, the empty text otherwise. *)
Definition initial_directory (s : State) : option SVal :=
  match settings s !! "directory_path" with
  | Some v => Some v
  | None => Some (VStr "")
  end.

(** How [restoreGeometry v] and [restoreState v] end: a text or a number
    raises [TypeError]. *)
Definition bytes_or_none (v : option SVal) : Result unit :=
  match v with
  | Some (VInt _) | Some (VStr _) => Raise TypeError
  | _ => Ok tt
  end.

(** The window after [restoreGeometry v] and after [restoreState v]. *)
Definition apply_geometry (pf : Platform) (v : option SVal) (s : State) : State :=
  match v with
  | Some (VBytes b) =>
      match geometry_flag pf b with
      | Some m => set_maximized m (set_geometry b s)
      | None => s
      end
  | _ => s
  end.
Definition apply_window_state (pf : Platform) (v : option SVal) (s : State) :
    State :=
  match v with
  | Some (VBytes b) => if state_accepted pf b then set_window_state b s else s
  | _ => s
  end.

(** The first part of [restore], geometry and window state: how it ends,
    the window it leaves, and its trace. *)
Definition window_outcome (s : State) : Result unit :=
  match bytes_or_none (settings s !! "geometry") with
  | Ok _ => bytes_or_none (settings s !! "window_state")
  | Raise e => Raise e
  end.

Definition restore_window (pf : Platform) (s : State) : State :=
  match settings s !! "geometry" with
  | Some g =>
      match bytes_or_none (Some g) with
      | Ok _ =>
          apply_window_state pf (settings s !! "window_state")
            (apply_geometry pf (Some g) s)
      | Raise _ => s
      end
  | None =>
      apply_window_state pf (settings s !! "window_state")
        (set_maximized true
           (set_geometry (shown_maximized pf (geometry s)) s))
  end.

Definition restore_window_trace (s : State) : list Effect :=
  match settings s !! "geometry" with
  | Some g =>
      [SettingsContains "geometry" true; SettingsValue "geometry";
       RestoreGeometry (Some g)]
      ++ match bytes_or_none (Some g) with
         | Ok _ =>
             [SettingsValue "window_state";
              RestoreState (settings s !! "window_state")]
         | Raise _ => []
         end
  | None =>
      [SettingsContains "geometry" false; ShowMaximized;
       SettingsValue "window_state";
       RestoreState (settings s !! "window_state")]
  end.

(** The index [restore] selects: the stored one, 0 without one. *)
Definition stored_index (pf : Platform) (s : State) : Result Z :=
  match settings s !! "image_index" with
  | Some v => py_int pf (Some v)
  | None => Ok 0
  end.

Definition stored_index_trace (s : State) : list Effect :=
  match settings s !! "image_index" with
  | Some _ =>
      [SettingsContains "image_index" true; SettingsValue "image_index"]
  | None => [SettingsContains "image_index" false]
  end.

(** What [select_and_load_directory] does before it looks at the answer of
    the dialog. *)
Definition dialog_trace (s : State) (chosen : string) : list Effect :=
  match settings s !! "directory_path" with
  | Some _ =>
      [SettingsContains "directory_path" true; SettingsValue "directory_path";
       GetExistingDirectory (initial_directory s) chosen]
  | None =>
      [SettingsContains "directory_path" false;
       GetExistingDirectory (initial_directory s) chosen]
  end.

(** Every emission of [currentChanged] in the trace is followed, within the
    run of its slots, by the write of its row under [image_index]. *)
Fixpoint changes_write_row (l : list Effect) : Prop :=
  match l with
  | [] => True
  | CurrentChanged i :: rest =>
      SettingsSetValue "image_index" (VInt (row i)) ∈ take 4 rest
      ∧ changes_write_row rest
  | _ :: rest => changes_write_row rest
  end.

(** The settings keys for which a trace asks [contains]. *)
Fixpoint contains_checks (l : list Effect) : list string :=
  match l with
  | [] => []
  | SettingsContains key _ :: rest => key :: contains_checks rest
  | _ :: rest => contains_checks rest
  end.

(** The settings keys that a trace reads with [value] before any [contains]
    on the same key has answered that the key is present. *)
Fixpoint unchecked_reads (checked : list string) (l : list Effect) : list string :=
  match l with
  | [] => []
  | SettingsContains key true :: rest => unchecked_reads (key :: checked) rest
  | SettingsValue key :: rest =>
      if existsb (String.eqb key) checked then unchecked_reads checked rest
      else key :: unchecked_reads checked rest
  | _ :: rest => unchecked_reads checked rest
  end.

(** ** A small directory, for concrete runs *)

Definition demo_images : list Image :=
  [mkImage "/pics/a.png" ["cat"; "dog"]; mkImage "/pics/b.png" ["cat"]].

Definition demo_scan (p : Path) : list Image :=
  if decide (path_str p = "/pics") then demo_images else [].

(** A platform for the concrete runs: [int] reads ASCII digits, geometry
    bytes start with "g" or, when saved maximized, with "m", and window
    state bytes start with "w". *)
Definition demo_platform : Platform :=
  mkPlatform int_of_str int_of_str
    (λ b, match b with
          | String "g"%char _ => Some false
          | String "m"%char _ => Some true
          | _ => None
          end)
    (λ b, match b with
          | String "w"%char _ => true
          | _ => false
          end)
    (λ b, String "m"%char b).

Definition demo_cancel (dir : option SVal) : string := "".
Definition demo_pick_empty (dir : option SVal) : string := "/empty".
Definition demo_pick (dir : option SVal) : string := "/pics".
Definition demo_normalize (s : string) : string := s.

(** A settings store of an earlier session, and a first launch. *)
Definition demo_stored : gmap string SVal :=
  <["font_size" := VStr "18"]>
    (<["directory_path" := VStr "/pics"]> (<["image_index" := VInt 1]> ∅)).

Definition demo_window : State := fresh_window demo_stored "g0" "w0" 10.
Definition demo_first_launch : State := fresh_window ∅ "g0" "w0" 10.
Definition demo_restored : State :=
  run (restore demo_platform demo_scan demo_normalize) demo_window.

(** The restored demo window after the tag "bird" was added in the editor. *)
Definition demo_edited : State :=
  run (handle demo_platform demo_scan demo_pick demo_normalize
         (EditsTags (AddTag "bird")))
    demo_restored.

(** A first launch with a font size stored and nothing else, and the same
    window after a tag was typed with nothing selected. *)
Definition demo_no_directory : State :=
  run (restore demo_platform demo_scan demo_normalize)
    (fresh_window (<["font_size" := VInt 18]> ∅) "g0" "w0" 10).
Definition demo_stray_edit : State :=
  run (handle demo_platform demo_scan demo_pick demo_normalize
         (EditsTags (AddTag "bird")))
    demo_no_directory.

(** A store whose [image_index] is no C [int], and one whose geometry is a
    text. *)
Definition demo_huge_index : State :=
  fresh_window (<["image_index" := VInt 4294967296]> demo_stored) "g0" "w0" 10.
Definition demo_text_geometry : State :=
  fresh_window (<["geometry" := VStr "wide"]> demo_stored) "g0" "w0" 10.

(** A store whose [image_index] is a row the directory does not have. *)
Definition demo_stale_index : State :=
  fresh_window (<["image_index" := VInt 5]> demo_stored) "g0" "w0" 10.

(** A settings store whose [image_index] is no integer. *)
Definition demo_bad_index : State :=
  fresh_window (<["image_index" := VStr "first"]> demo_stored) "g0" "w0" 10.

(** ** Sessions *)

(** The settings keys the handler of an event may write. *)
Definition written_keys (ev : Event) : list string :=
  match ev with
  | SelectsRow _ => ["image_index"]
  | EditsTags _ => []
  | LoadsDirectory => ["directory_path"; "image_index"]
  | AppliesFontSize => []
  | Closes => ["geometry"; "window_state"]
  end.

(** The states of one session over a directory tree that does not change:
    as [reachable], with the platform, the directory contents and the path
    normal form fixed.  The answers of the dialog still vary. *)
Inductive session (pf : Platform) (scan_directory : Path → list Image)
    (normalize : string → string) : State → Prop :=
| session_start stored g w pt :
    outcome (restore pf scan_directory normalize) (fresh_window stored g w pt)
    = Ok tt →
    session pf scan_directory normalize
      (run (restore pf scan_directory normalize) (fresh_window stored g w pt))
| session_event choose_directory s ev :
    session pf scan_directory normalize s →
    session pf scan_directory normalize
      (run (handle pf scan_directory choose_directory normalize ev) s).

(** What the settings say about the window, the image list and the
    selection: the stored geometry and window state are byte arrays, the
    stored index, looked up in the image list, is the current index, and
    the stored path is a normal form whose directory has as many images as
    the list; without a stored path the list is empty. *)
Definition resumable (pf : Platform) (scan_directory : Path → list Image)
    (normalize : string → string) (s : State) : Prop :=
  window_outcome s = Ok tt
  ∧ (∃ k, stored_index pf s = Ok k ∧ model_index (images s) k = current s)
  ∧ match settings s !! "directory_path" with
    | Some v =>
        ∃ d, v = VStr d ∧ normalize d = d
             ∧ length (images s) = length (scan_directory (mkPath d))
    | None => images s = []
    end.

(** The next session: a new window over the settings that [s] leaves. *)
Definition next_session (pf : Platform) (scan_directory : Path → list Image)
    (normalize : string → string) (s : State) (g w : string) (pt : Z) : State :=
  run (restore pf scan_directory normalize) (fresh_window (settings s) g w pt).

(** ** Properties *)

Arguments load_directory : simpl never.
Arguments set_font_size : simpl never.
Arguments restoreGeometry : simpl never.
Arguments restoreState : simpl never.
Arguments Path_of : simpl never.
Arguments py_int : simpl never.
Arguments apply_geometry : simpl never.
Arguments apply_window_state : simpl never.
Arguments load_directory_trace : simpl never.
Arguments setPointSize : simpl never.
Arguments model_index_call : simpl never.


(** *** Python's [int], as the demo platform reads it *)

Example py_int_str : py_int demo_platform (Some (VStr " -1_2 ")) = Ok (-12).
Proof. reflexivity. Qed.
Example py_int_bad :
  py_int demo_platform (Some (VStr "1__2")) = Raise ValueError.
Proof. reflexivity. Qed.

Section Properties.

Variable pf : Platform.
Variable scan_directory : Path → list Image.
Variable choose_directory : option SVal → string.
Variable normalize : string → string.

Local Abbreviation model_load_directory := (model_load_directory scan_directory).
Local Abbreviation load_directory := (load_directory scan_directory).
Local Abbreviation select_and_load_directory :=
  (select_and_load_directory scan_directory choose_directory normalize).
Local Abbreviation set_font_size := (set_font_size pf).
Local Abbreviation restore := (restore pf scan_directory normalize).
Local Abbreviation handle :=
  (handle pf scan_directory choose_directory normalize).
Local Abbreviation py_int := (py_int pf).
Local Abbreviation stored_index := (stored_index pf).
Local Abbreviation restore_window := (restore_window pf).
Local Abbreviation apply_geometry := (apply_geometry pf).
Local Abbreviation apply_window_state := (apply_window_state pf).
Local Abbreviation restoreGeometry := (restoreGeometry pf).
Local Abbreviation restoreState := (restoreState pf).

(** *** Tag counting *)

Lemma add_tag_count_lookup (c : gmap string nat) (x t : string) :
  add_tag_count c x !! t =
    if decide (x = t) then Some (S (default 0%nat (c !! t))) else c !! t.
Proof.
  unfold add_tag_count. case_decide as E.
  - subst. apply lookup_insert_eq.
  - by apply lookup_insert_ne.
Qed.

Lemma foldl_add_tag_count (l : list string) (c : gmap string nat)
    (t : string) (n : nat) :
  c !! t = entry n →
  foldl add_tag_count c l !! t
  = entry (n + multiplicity t (list_to_set_disj l)).
Proof.
  revert c n. induction l as [ | x l IH]; intros c n Hc; simpl.
  - rewrite multiplicity_empty, Nat.add_0_r. exact Hc.
  - rewrite multiplicity_disj_union, multiplicity_singleton.
    case_decide as E.
    + subst x. rewrite (IH _ (S n)).
      * f_equal. lia.
      * rewrite add_tag_count_lookup, decide_True, Hc by done.
        by destruct n.
    + rewrite (IH _ n).
      * f_equal.
      * rewrite add_tag_count_lookup, decide_False by congruence. done.
Qed.

Lemma tags_multiset_concat (imgs : list Image) :
  tags_multiset imgs = list_to_set_disj (concat (map image_tags imgs)).
Proof.
  induction imgs as [ | im imgs IH]; simpl; [done|].
  by rewrite list_to_set_disj_app, IH.
Qed.

Lemma count_tags_lookup (imgs : list Image) (t : string) :
  count_tags imgs !! t = entry (multiplicity t (tags_multiset imgs)).
Proof.
  unfold count_tags. rewrite tags_multiset_concat.
  apply (foldl_add_tag_count _ ∅ t 0). apply lookup_empty.
Qed.

Lemma image_list_dataChanged_run (s : State) :
  image_list_dataChanged s
  = (Ok tt, set_tag_counts (count_tags (images s)) s,
     [ImageListDataChanged; CountTags]).
Proof. reflexivity. Qed.

(** C2.  Every change notification of the image list model makes the tag
    counter model count anew over the whole current image list: the
    images are left as they are, the table that results does not depend
    on the table before, and its entry for any tag is the multiplicity of
    the tag in the multiset union of all images' tag lists.  Both
    mutations of the image list model end in that notification, so the
    table agrees with the images they leave. *)
Theorem C2_recount_on_every_change (s : State) :
  let s' := run image_list_dataChanged s in
  trace image_list_dataChanged s = [ImageListDataChanged; CountTags]
  ∧ images s' = images s
  ∧ (∀ t, tag_counts s' !! t
          = entry (multiplicity t (tags_multiset (images s))))
  ∧ (∀ c, tag_counts (run image_list_dataChanged (set_tag_counts c s))
          = tag_counts s')
  ∧ (∀ p t, let s1 := run (model_load_directory p) s in
            tag_counts s1 !! t
            = entry (multiplicity t (tags_multiset (images s1))))
  ∧ (∀ i tags t, let s2 := run (model_update_tags i tags) s in
            outcome (model_update_tags i tags) s = Ok tt →
            tag_counts s2 !! t
            = entry (multiplicity t (tags_multiset (images s2)))).
Proof.
  unfold run, trace, outcome. rewrite image_list_dataChanged_run. simpl.
  repeat split.
  - intros t. apply count_tags_lookup.
  - intros p t. cbn. apply count_tags_lookup.
  - intros i tags t. unfold model_update_tags.
    destruct i as [ | r]; cbn; [discriminate|].
    destruct (images s !! r) as [im|]; cbn; [|discriminate].
    intros _. apply count_tags_lookup.
Qed.

(** *** Closing the window *)

(** C8.  [closeEvent] asks the window for its geometry and stores it under
    [geometry], asks for its state and stores it under [window_state], and
    only then runs the base class's close handling; the two values are in
    the settings when it returns. *)
Theorem C8_close_saves_before_teardown (s : State) :
  trace closeEvent s
  = [SaveGeometry; SettingsSetValue "geometry" (VBytes (geometry s));
     SaveState; SettingsSetValue "window_state" (VBytes (window_state s));
     BaseCloseEvent]
  ∧ outcome closeEvent s = Ok tt
  ∧ settings (run closeEvent s) !! "geometry" = Some (VBytes (geometry s))
  ∧ settings (run closeEvent s) !! "window_state"
    = Some (VBytes (window_state s))
  ∧ closed (run closeEvent s) = true.
Proof.
  repeat split.
  - unfold run, closeEvent. simpl.
    rewrite lookup_insert_ne by done. apply lookup_insert_eq.
  - unfold run, closeEvent. simpl. apply lookup_insert_eq.
Qed.

(** *** The selection model and [load_directory], run *)

Lemma currentChanged_run (i : QModelIndex) (s : State) :
  currentChanged i s = (Ok tt, selected i s, changed_trace (images s) i).
Proof. reflexivity. Qed.

Lemma clearCurrentIndex_run (s : State) :
  clearCurrentIndex s
  = (Ok tt, cleared s,
     ClearCurrentIndex :: slots_trace (is_valid (current s)) (images s) InvalidIndex).
Proof.
  unfold clearCurrentIndex, cleared. destruct s as [? ? ? ? cur ? ? ? ? ? ? ? ?].
  destruct cur; reflexivity.
Qed.

Lemma setCurrentIndex_run (i : QModelIndex) (s : State) :
  setCurrentIndex i s
  = (Ok tt, made_current i s,
     SetCurrentIndex i
       :: slots_trace (bool_decide (i ≠ current s)) (images s) i).
Proof.
  unfold setCurrentIndex, made_current, bind, log, gets. simpl.
  destruct (decide (i = current s)) as [E|E].
  - rewrite bool_decide_eq_false_2 by tauto. reflexivity.
  - rewrite bool_decide_eq_true_2 by done. reflexivity.
Qed.

Lemma cleared_current (s : State) : current (cleared s) = InvalidIndex.
Proof. unfold cleared. by destruct (is_valid (current s)). Qed.

Lemma cleared_images (s : State) : images (cleared s) = images s.
Proof. unfold cleared. by destruct (is_valid (current s)). Qed.

Lemma made_current_current (i : QModelIndex) (s : State) :
  current (made_current i s) = i.
Proof. unfold made_current. destruct (decide (i = current s)); by subst. Qed.

Lemma selected_settings_ne (key : string) (i : QModelIndex) (s : State) :
  key ≠ "image_index" → settings (selected i s) !! key = settings s !! key.
Proof. intros H. simpl. by rewrite lookup_insert_ne. Qed.

Lemma cleared_settings_ne (key : string) (s : State) :
  key ≠ "image_index" → settings (cleared s) !! key = settings s !! key.
Proof.
  intros H. unfold cleared. destruct (is_valid (current s)); [|done].
  by rewrite selected_settings_ne.
Qed.

Lemma made_current_settings_ne (key : string) (i : QModelIndex) (s : State) :
  key ≠ "image_index" → settings (made_current i s) !! key = settings s !! key.
Proof.
  intros H. unfold made_current. destruct (decide (i = current s)); [done|].
  by rewrite selected_settings_ne.
Qed.

Lemma made_current_images (i : QModelIndex) (s : State) :
  images (made_current i s) = images s.
Proof. unfold made_current. by destruct (decide (i = current s)). Qed.

Lemma target_selected_settings_ne (key : string) (imgs : list Image) (k : Z)
    (s : State) :
  key ≠ "image_index" →
  settings (target_selected imgs k s) !! key = settings s !! key.
Proof.
  intros H. unfold target_selected. case_decide; [|done].
  cbn. by apply made_current_settings_ne.
Qed.

Lemma target_selected_images (imgs : list Image) (k : Z) (s : State) :
  images (target_selected imgs k s) = images s.
Proof.
  unfold target_selected. case_decide; [|done].
  cbn. apply made_current_images.
Qed.

Lemma target_selected_current (imgs : list Image) (k : Z) (s : State) :
  current s = InvalidIndex →
  current (target_selected imgs k s) = model_index imgs k.
Proof.
  intros Hc. unfold target_selected. case_decide as H.
  - cbn. apply made_current_current.
  - rewrite Hc. unfold model_index. rewrite decide_False; [done|tauto].
Qed.

Lemma load_directory_run (p : Path) (k : Z) (s : State) :
  load_directory p k s
  = (load_directory_outcome k,
     target_selected (scan_directory p) k
       (cleared (loaded p (scan_directory p) s)),
     load_directory_trace p (scan_directory p) k (current s)).
Proof.
  unfold load_directory, load_directory_trace, load_directory_outcome,
    target_selected, model_index_call.
  unfold bind at 1. simpl.
  unfold bind at 1. simpl.
  unfold bind at 1. rewrite clearCurrentIndex_run.
  destruct (decide (in_c_int k)) as [Hk|Hk].
  - unfold bind at 1. unfold bind at 1. unfold bind at 1. simpl.
    rewrite setCurrentIndex_run, cleared_images, cleared_current. simpl.
    destruct (model_index (scan_directory p) k); reflexivity.
  - unfold bind at 1. unfold bind at 1. unfold bind at 1. simpl.
    by rewrite app_nil_r.
Qed.

Lemma model_index_in_range (imgs : list Image) (k : Z) :
  in_c_int k →
  (0 ≤ k < Z.of_nat (length imgs))%Z →
  model_index imgs k = RowIndex (Z.to_nat k).
Proof. intros Hc H. unfold model_index. by rewrite decide_True. Qed.

Lemma model_index_out_of_range (imgs : list Image) (k : Z) :
  ¬ (0 ≤ k < Z.of_nat (length imgs))%Z →
  model_index imgs k = InvalidIndex.
Proof. intros H. unfold model_index. rewrite decide_False; [done|tauto]. Qed.

Lemma model_index_row_c_int (imgs : list Image) (r : nat) (im : Image) :
  imgs !! r = Some im → in_c_int (Z.of_nat r) →
  model_index imgs (Z.of_nat r) = RowIndex r.
Proof.
  intros H Hc. apply lookup_lt_Some in H.
  rewrite model_index_in_range by (done || lia). by rewrite Nat2Z.id.
Qed.

(** *** Selecting an image *)

(** C3.  When the current index of the image list view changes to a row [n]
    that holds image [im], the slots of [currentChanged] run: the viewer
    shows [im], and the editor records row [n] and sets the image tag list
    model to exactly the tags of [im]. *)
Theorem C3_selection_loads_image_and_tags (s : State) (n : nat) (im : Image) :
  images s !! n = Some im →
  current s ≠ RowIndex n →
  let s' := run (setCurrentIndex (RowIndex n)) s in
  trace (setCurrentIndex (RowIndex n)) s
  = [SetCurrentIndex (RowIndex n); CurrentChanged (RowIndex n);
     ViewerLoadImage (RowIndex n); EditorLoadImageTags (RowIndex n);
     SetStringList (image_tags im);
     SettingsSetValue "image_index" (VInt (Z.of_nat n))]
  ∧ current s' = RowIndex n
  ∧ viewer_image s' = Some im
  ∧ editor_image_index s' = RowIndex n
  ∧ tag_list s' = image_tags im
  ∧ images s' = images s.
Proof.
  intros Him Hne. unfold run, trace. rewrite setCurrentIndex_run.
  unfold made_current. rewrite decide_False by congruence.
  rewrite bool_decide_eq_true_2 by congruence. simpl.
  unfold changed_trace. simpl. rewrite Him. simpl. repeat split.
Qed.

(** *** Loading a directory *)

Lemma load_directory_trace_eq (p : Path) (k : Z) (s : State) :
  trace (load_directory p k) s
  = load_directory_trace p (scan_directory p) k (current s).
Proof. unfold trace. by rewrite load_directory_run. Qed.

Lemma load_directory_state (p : Path) (k : Z) (s : State) :
  run (load_directory p k) s
  = target_selected (scan_directory p) k
      (cleared (loaded p (scan_directory p) s)).
Proof. unfold run. by rewrite load_directory_run. Qed.

Lemma load_directory_outcome_eq (p : Path) (k : Z) (s : State) :
  outcome (load_directory p k) s = load_directory_outcome k.
Proof. unfold outcome. by rewrite load_directory_run. Qed.

Lemma load_directory_settings_ne (key : string) (p : Path) (k : Z) (s : State) :
  key ≠ "image_index" → key ≠ "directory_path" →
  settings (run (load_directory p k) s) !! key = settings s !! key.
Proof.
  intros H1 H2. rewrite load_directory_state.
  rewrite target_selected_settings_ne, cleared_settings_ne by done.
  simpl. by rewrite lookup_insert_ne.
Qed.

Lemma load_directory_current (p : Path) (k : Z) (s : State) :
  current (run (load_directory p k) s) = model_index (scan_directory p) k.
Proof.
  rewrite load_directory_state. apply target_selected_current, cleared_current.
Qed.

Lemma load_directory_path_stored (p : Path) (k : Z) (s : State) :
  settings (run (load_directory p k) s) !! "directory_path"
  = Some (VStr (path_str p)).
Proof.
  rewrite load_directory_state.
  rewrite target_selected_settings_ne, cleared_settings_ne by done.
  cbn. apply lookup_insert_eq.
Qed.

Lemma changes_write_row_changed (imgs : list Image) (i : QModelIndex)
    (rest : list Effect) :
  changes_write_row rest → changes_write_row (changed_trace imgs i ++ rest).
Proof.
  intros H. simpl. split; [|exact H].
  rewrite !elem_of_cons. tauto.
Qed.

Lemma changes_write_row_slots (b : bool) (imgs : list Image) (i : QModelIndex)
    (rest : list Effect) :
  changes_write_row rest → changes_write_row (slots_trace b imgs i ++ rest).
Proof.
  destruct b; [apply changes_write_row_changed|done].
Qed.

(** C10.  [load_directory] first writes [str(path)] under [directory_path]
    and only then reloads the image list model, so the path is in the
    settings when it returns, whatever the directory holds (nothing
    included).  Every emission of [currentChanged] writes the row of its
    index under [image_index]; the clearing step, which happens when an
    image was selected, writes -1. *)
Theorem C10_path_stored_first_rows_written (p : Path) (k : Z) (s : State) :
  let s' := run (load_directory p k) s in
  (∃ rest, trace (load_directory p k) s
           = SettingsSetValue "directory_path" (VStr (path_str p))
               :: ModelLoadDirectory p :: rest)
  ∧ settings s' !! "directory_path" = Some (VStr (path_str p))
  ∧ images s' = scan_directory p
  ∧ changes_write_row (trace (load_directory p k) s)
  ∧ (is_valid (current s) = true →
       [CurrentChanged InvalidIndex;
        SettingsSetValue "image_index" (VInt (-1))]
       ⊆ trace (load_directory p k) s)
  ∧ (∀ i s0, settings (run (currentChanged i) s0) !! "image_index"
             = Some (VInt (row i))
             ∧ changes_write_row (trace (currentChanged i) s0)).
Proof.
  cbv zeta. rewrite load_directory_path_stored, load_directory_state,
    load_directory_trace_eq.
  split; [eexists; reflexivity|].
  split; [reflexivity|].
  split.
  { by rewrite target_selected_images, cleared_images. }
  split.
  { unfold load_directory_trace. simpl.
    apply changes_write_row_slots. case_decide; [|exact I].
    simpl. apply (changes_write_row_slots _ _ _ [_]). exact I. }
  split.
  - unfold load_directory_trace. intros ->. simpl. intros e He.
    rewrite !elem_of_cons in He. rewrite !elem_of_cons.
    destruct He as [->|[->|He]]; [tauto|tauto|].
    by apply elem_of_nil in He.
  - intros i s0. simpl. split.
    + apply lookup_insert_eq.
    + split; [|exact I]. rewrite !elem_of_cons. tauto.
Qed.

(** *** The directory dialog *)

Lemma select_and_load_directory_run (s : State) :
  select_and_load_directory s
  = let chosen := choose_directory (initial_directory s) in
    if decide (chosen = "") then (Ok tt, s, dialog_trace s chosen)
    else (Ok tt, run (load_directory (mkPath (normalize chosen)) 0) s,
          dialog_trace s chosen
          ++ trace (load_directory (mkPath (normalize chosen)) 0) s).
Proof.
  assert (H0 : load_directory_outcome 0 = Ok tt).
  { unfold load_directory_outcome. rewrite decide_True; [done|].
    unfold in_c_int. lia. }
  unfold select_and_load_directory, dialog_trace, initial_directory.
  unfold settings_contains, settings_value, getExistingDirectory.
  unfold run, trace. cbn.
  destruct (settings s !! "directory_path") as [v|] eqn:E;
    cbn; rewrite ?E; cbn.
  - destruct (decide (choose_directory (Some v) = "")); cbn; [done|].
    rewrite load_directory_run, H0. reflexivity.
  - destruct (decide (choose_directory (Some (VStr "")) = "")); cbn; [done|].
    rewrite load_directory_run, H0. reflexivity.
Qed.

(** C6.  When the dialog is cancelled, that is, answers the empty text,
    [select_and_load_directory] returns normally and leaves the whole state
    as it was: the image list, the selection, the visible page and every
    settings value included; it writes no setting and reloads nothing. *)
Theorem C6_cancelled_dialog_is_noop (s : State) :
  choose_directory (initial_directory s) = "" →
  let s' := run select_and_load_directory s in
  s' = s
  ∧ outcome select_and_load_directory s = Ok tt
  ∧ images s' = images s
  ∧ current s' = current s
  ∧ central s' = central s
  ∧ settings s' = settings s
  ∧ (∀ e, e ∈ trace select_and_load_directory s →
          (∃ key b, e = SettingsContains key b)
          ∨ (∃ key, e = SettingsValue key)
          ∨ (∃ d a, e = GetExistingDirectory d a)).
Proof.
  intros H. unfold run, outcome, trace.
  rewrite select_and_load_directory_run. cbn zeta.
  rewrite decide_True by exact H. cbn. repeat split.
  intros e He. unfold dialog_trace in He.
  destruct (settings s !! "directory_path");
    repeat (apply elem_of_cons in He as [->|He]; [eauto 6|]);
    by apply elem_of_nil in He.
Qed.

(** *** Session restore, run *)

Lemma set_font_size_run (s : State) :
  set_font_size s
  = match py_int (settings s !! "font_size") with
    | Ok z =>
        match setPointSize (font_point_size s) z with
        | Ok n => (Ok tt, set_font_point_size n s,
                   [SettingsValue "font_size"; SetFont n])
        | Raise e => (Raise e, s, [SettingsValue "font_size"])
        end
    | Raise e => (Raise e, s, [SettingsValue "font_size"])
    end.
Proof.
  unfold set_font_size, settings_value. cbn.
  destruct (py_int (settings s !! "font_size")) as [z|e]; [|reflexivity].
  cbn. destruct (setPointSize (font_point_size s) z); reflexivity.
Qed.

Lemma restoreGeometry_run (v : option SVal) (s : State) :
  restoreGeometry v s
  = (bytes_or_none v, apply_geometry v s, [RestoreGeometry v]).
Proof.
  unfold restoreGeometry, apply_geometry.
  destruct v as [[z|t|b]|]; try reflexivity.
  cbn. destruct (geometry_flag pf b); reflexivity.
Qed.

Lemma restoreState_run (v : option SVal) (s : State) :
  restoreState v s
  = (bytes_or_none v, apply_window_state v s, [RestoreState v]).
Proof.
  unfold restoreState, apply_window_state.
  destruct v as [[z|t|b]|]; try reflexivity.
  cbn. destruct (state_accepted pf b); reflexivity.
Qed.

Lemma apply_geometry_settings (v : option SVal) (s : State) :
  settings (apply_geometry v s) = settings s.
Proof.
  unfold apply_geometry. destruct v as [[z|t|b]|]; try done.
  by destruct (geometry_flag pf b).
Qed.

Lemma apply_window_state_settings (v : option SVal) (s : State) :
  settings (apply_window_state v s) = settings s.
Proof.
  unfold apply_window_state. destruct v as [[z|t|b]|]; try done.
  by destruct (state_accepted pf b).
Qed.

(** What the window part of [restore] leaves alone. *)
Lemma restore_window_frame (s : State) :
  let s' := restore_window s in
  images s' = images s ∧ current s' = current s ∧ central s' = central s
  ∧ settings s' = settings s ∧ font_point_size s' = font_point_size s
  ∧ tag_list s' = tag_list s ∧ editor_image_index s' = editor_image_index s
  ∧ closed s' = closed s.
Proof.
  cbv zeta. unfold restore_window, apply_window_state, apply_geometry.
  destruct (settings s !! "window_state") as [[? |? |w]|],
           (settings s !! "geometry") as [[? |? |g]|]; cbn;
    try destruct (geometry_flag pf g); try destruct (state_accepted pf w);
    done.
Qed.

Lemma restore_window_settings (s : State) :
  settings (restore_window s) = settings s.
Proof. apply restore_window_frame. Qed.

Lemma restore_window_images (s : State) :
  images (restore_window s) = images s.
Proof. apply restore_window_frame. Qed.

(** [restore], step by step: the window, the stored index, the stored
    directory, the font size.  A step that raises ends it. *)
Lemma restore_run (s : State) :
  restore s
  = let s1 := restore_window s in
    match window_outcome s with
    | Raise e => (Raise e, s1, restore_window_trace s)
    | Ok _ =>
    let t1 := restore_window_trace s ++ stored_index_trace s in
    match stored_index s with
    | Raise e => (Raise e, s1, t1)
    | Ok k =>
        match settings s !! "directory_path" with
        | None =>
            (outcome set_font_size s1, run set_font_size s1,
             t1 ++ [SettingsContains "directory_path" false]
                ++ trace set_font_size s1)
        | Some v =>
            match Path_of normalize (Some v) with
            | Raise e =>
                (Raise e, s1,
                 t1 ++ [SettingsContains "directory_path" true;
                        SettingsValue "directory_path"])
            | Ok p =>
                let s2 := run (load_directory p k) s1 in
                match load_directory_outcome k with
                | Raise e =>
                    (Raise e, s2,
                     t1 ++ [SettingsContains "directory_path" true;
                            SettingsValue "directory_path"]
                        ++ trace (load_directory p k) s1)
                | Ok _ =>
                    (outcome set_font_size s2, run set_font_size s2,
                     t1 ++ [SettingsContains "directory_path" true;
                            SettingsValue "directory_path"]
                        ++ trace (load_directory p k) s1
                        ++ trace set_font_size s2)
                end
            end
        end
    end
    end.
Proof.
  unfold restore, restore_window, restore_window_trace, window_outcome,
    stored_index, stored_index_trace, settings_contains, settings_value,
    showMaximized.
  unfold outcome, run, trace.
  cbv beta iota zeta delta [bind ret raise modify gets log lift].
  destruct (settings s !! "geometry") as [[gz|gt|g]|] eqn:Eg;
    destruct (settings s !! "window_state") as [[wz|wt|w]|] eqn:Ew.
  all: repeat (progress (cbn;
    rewrite ?restoreGeometry_run, ?restoreState_run,
      ?apply_window_state_settings, ?apply_geometry_settings, ?Eg, ?Ew)).
  all: try reflexivity.
  all: destruct (settings s !! "image_index") as [i|] eqn:Ei;
    [destruct (py_int (Some i)) as [k|e] eqn:Hi|].
  all: repeat (progress (cbn;
    rewrite ?apply_window_state_settings, ?apply_geometry_settings,
      ?Ei, ?Hi)).
  all: try reflexivity.
  all: destruct (settings s !! "directory_path") as [d|] eqn:Ed;
    [destruct (Path_of normalize (Some d)) as [p|e'] eqn:Hd|].
  all: repeat (progress (cbn;
    rewrite ?apply_window_state_settings, ?apply_geometry_settings,
      ?Ed, ?Hd)).
  all: try reflexivity.
  all: rewrite ?load_directory_run; cbn.
  all: try destruct (load_directory_outcome _); cbn; try reflexivity.
  all: match goal with
       | |- context [set_font_size ?x] =>
           destruct (set_font_size x) as [[r' s'] l']
       end; reflexivity.
Qed.
Lemma in_c_int_0 : in_c_int 0.
Proof. unfold in_c_int. lia. Qed.

Lemma set_font_size_raise (s : State) (e : Exn) :
  py_int (settings s !! "font_size") = Raise e →
  outcome set_font_size s = Raise e
  ∧ run set_font_size s = s
  ∧ trace set_font_size s = [SettingsValue "font_size"].
Proof.
  intros H. unfold outcome, run, trace. rewrite set_font_size_run, H. done.
Qed.

Lemma set_font_size_current (s : State) :
  current (run set_font_size s) = current s.
Proof.
  unfold run. rewrite set_font_size_run.
  destruct (py_int (settings s !! "font_size")) as [z|e]; [|done].
  by destruct (setPointSize (font_point_size s) z).
Qed.

Lemma set_font_size_frame (s : State) :
  images (run set_font_size s) = images s
  ∧ maximized (run set_font_size s) = maximized s
  ∧ tag_list (run set_font_size s) = tag_list s
  ∧ editor_image_index (run set_font_size s) = editor_image_index s.
Proof.
  unfold run. rewrite set_font_size_run.
  destruct (py_int (settings s !! "font_size")) as [z|e]; [|done].
  by destruct (setPointSize (font_point_size s) z).
Qed.

Lemma set_font_size_window (s : State) :
  let s' := run set_font_size s in
  geometry s' = geometry s ∧ window_state s' = window_state s
  ∧ central s' = central s ∧ settings s' = settings s
  ∧ closed s' = closed s ∧ tag_counts s' = tag_counts s
  ∧ viewer_image s' = viewer_image s.
Proof.
  cbv zeta. unfold run. rewrite set_font_size_run.
  destruct (py_int (settings s !! "font_size")) as [z|e]; [|done].
  by destruct (setPointSize (font_point_size s) z).
Qed.

Lemma set_font_size_trace_head (s : State) :
  ∃ rest, trace set_font_size s = SettingsValue "font_size" :: rest.
Proof.
  unfold trace. rewrite set_font_size_run.
  destruct (py_int (settings s !! "font_size")) as [z|e]; [|by eexists].
  destruct (setPointSize (font_point_size s) z); by eexists.
Qed.

Lemma set_font_size_trace_cases (s : State) :
  trace set_font_size s = [SettingsValue "font_size"]
  ∨ ∃ n, trace set_font_size s = [SettingsValue "font_size"; SetFont n].
Proof.
  unfold trace. rewrite set_font_size_run.
  destruct (py_int (settings s !! "font_size")) as [z|e]; [|by left].
  destruct (setPointSize (font_point_size s) z); [right; by eexists|by left].
Qed.

Lemma cleared_frame (s : State) :
  central (cleared s) = central s ∧ maximized (cleared s) = maximized s
  ∧ font_point_size (cleared s) = font_point_size s
  ∧ geometry (cleared s) = geometry s
  ∧ window_state (cleared s) = window_state s
  ∧ closed (cleared s) = closed s
  ∧ tag_counts (cleared s) = tag_counts s.
Proof. unfold cleared. by destruct (is_valid (current s)). Qed.

Lemma made_current_frame (i : QModelIndex) (s : State) :
  central (made_current i s) = central s
  ∧ maximized (made_current i s) = maximized s
  ∧ font_point_size (made_current i s) = font_point_size s
  ∧ geometry (made_current i s) = geometry s
  ∧ window_state (made_current i s) = window_state s
  ∧ closed (made_current i s) = closed s
  ∧ tag_counts (made_current i s) = tag_counts s.
Proof. unfold made_current. by destruct (decide (i = current s)). Qed.

(** What [load_directory] leaves alone, and what it always sets. *)
Lemma load_directory_window (p : Path) (k : Z) (s : State) :
  let s' := run (load_directory p k) s in
  geometry s' = geometry s ∧ window_state s' = window_state s
  ∧ maximized s' = maximized s ∧ font_point_size s' = font_point_size s
  ∧ closed s' = closed s
  ∧ images s' = scan_directory p
  ∧ tag_counts s' = count_tags (scan_directory p).
Proof.
  cbv zeta. rewrite load_directory_state. unfold target_selected.
  destruct (cleared_frame (loaded p (scan_directory p) s))
    as (_ & Hm & Hf & Hg & Hw & Hc & Ht).
  case_decide.
  - cbn.
    destruct (made_current_frame (model_index (scan_directory p) k)
                (cleared (loaded p (scan_directory p) s)))
      as (_ & -> & -> & -> & -> & -> & ->).
    rewrite made_current_images, cleared_images, Hm, Hf, Hg, Hw, Hc, Ht.
    done.
  - by rewrite cleared_images, Hm, Hf, Hg, Hw, Hc, Ht.
Qed.

Lemma load_directory_central (p : Path) (k : Z) (s : State) :
  central (run (load_directory p k) s)
  = if decide (in_c_int k) then ImageViewerPanel else central s.
Proof.
  rewrite load_directory_state. unfold target_selected.
  case_decide; [done|].
  by destruct (cleared_frame (loaded p (scan_directory p) s)) as (-> & _).
Qed.

Lemma load_directory_trace_sets (p : Path) (imgs : list Image) (k : Z)
    (previous : QModelIndex) :
  in_c_int k →
  SetCurrentIndex (model_index imgs k) ∈ load_directory_trace p imgs k previous.
Proof.
  intros H. unfold load_directory_trace. rewrite decide_True by done.
  rewrite !elem_of_app. right. right. left. constructor.
Qed.

(** C7.  For a target index that is a C [int], [load_directory] returns
    normally; it stores the path and reloads the model, then clears the
    current index, then sets the current index to the target, then shows
    the image viewer, in this order.  With a target row [r] that the new
    list has, the slots of [currentChanged] run for [r] whatever was
    selected before, row [r] included: the viewer and the tag list model
    hold image [r] of the new list.  Setting the current index to the
    already current row without clearing first runs no slot at all.  For a
    target that is no C [int], [load_directory] raises [OverflowError]
    once the selection is cleared: the current index is not set and the
    visible page stays. *)
Theorem C7_load_clears_then_selects_then_shows (p : Path) (k : Z) (s : State) :
  in_c_int k →
  let s' := run (load_directory p k) s in
  let imgs := scan_directory p in
  let target := model_index imgs k in
  outcome (load_directory p k) s = Ok tt
  ∧ trace (load_directory p k) s
    = [SettingsSetValue "directory_path" (VStr (path_str p));
       ModelLoadDirectory p; ImageListDataChanged; CountTags;
       ClearCurrentIndex]
      ++ slots_trace (is_valid (current s)) imgs InvalidIndex
      ++ [SetCurrentIndex target]
      ++ slots_trace (is_valid target) imgs target
      ++ [SetCurrentWidget ImageViewerPanel]
  ∧ current s' = target
  ∧ central s' = ImageViewerPanel
  ∧ (∀ r im, imgs !! r = Some im → k = Z.of_nat r →
       CurrentChanged (RowIndex r) ∈ trace (load_directory p k) s
       ∧ current s' = RowIndex r
       ∧ viewer_image s' = Some im
       ∧ editor_image_index s' = RowIndex r
       ∧ tag_list s' = image_tags im)
  ∧ (∀ r, current s = RowIndex r →
       run (setCurrentIndex (RowIndex r)) s = s
       ∧ trace (setCurrentIndex (RowIndex r)) s = [SetCurrentIndex (RowIndex r)])
  ∧ (∀ k', ¬ in_c_int k' →
       outcome (load_directory p k') s = Raise OverflowError
       ∧ trace (load_directory p k') s
         = [SettingsSetValue "directory_path" (VStr (path_str p));
            ModelLoadDirectory p; ImageListDataChanged; CountTags;
            ClearCurrentIndex]
           ++ slots_trace (is_valid (current s)) imgs InvalidIndex
       ∧ current (run (load_directory p k') s) = InvalidIndex
       ∧ central (run (load_directory p k') s) = central s).
Proof.
  intros Hk. cbv zeta.
  rewrite load_directory_outcome_eq, load_directory_trace_eq,
    load_directory_current, load_directory_central, load_directory_state.
  unfold load_directory_outcome, load_directory_trace, target_selected.
  rewrite !decide_True by done.
  split; [reflexivity|]. split; [reflexivity|]. split; [reflexivity|].
  split; [reflexivity|]. split; [|split].
  - intros r im Him ->.
    rewrite (model_index_row_c_int _ _ _ Him Hk).
    unfold made_current. rewrite cleared_current.
    rewrite decide_False by discriminate. simpl.
    rewrite cleared_images. simpl. rewrite Him. simpl.
    repeat split.
    rewrite !elem_of_cons, !elem_of_app, !elem_of_cons. tauto.
  - intros r Hr. unfold run, trace. rewrite setCurrentIndex_run.
    unfold made_current. rewrite decide_True by done.
    rewrite bool_decide_eq_false_2 by (intros H; by apply H). done.
  - intros k' Hk'.
    rewrite load_directory_outcome_eq, load_directory_trace_eq,
      load_directory_current, load_directory_central.
    unfold load_directory_outcome, load_directory_trace.
    rewrite !decide_False by done.
    split; [reflexivity|]. split; [by rewrite app_nil_r|].
    split; [|reflexivity].
    unfold model_index. rewrite decide_False; [done|tauto].
Qed.
(** *** Session restore *)

Lemma window_outcome_ok (s : State) :
  bytes_or_none (settings s !! "geometry") = Ok tt →
  bytes_or_none (settings s !! "window_state") = Ok tt →
  window_outcome s = Ok tt.
Proof. intros Hg Hw. unfold window_outcome. by rewrite Hg, Hw. Qed.

Lemma window_outcome_inv (s : State) :
  window_outcome s = Ok tt →
  bytes_or_none (settings s !! "geometry") = Ok tt
  ∧ bytes_or_none (settings s !! "window_state") = Ok tt.
Proof.
  unfold window_outcome.
  destruct (bytes_or_none (settings s !! "geometry")) as [[]|]; [|done].
  by destruct (bytes_or_none (settings s !! "window_state")) as [[]|].
Qed.

Lemma stored_index_of (s : State) (k : Z) :
  match settings s !! "image_index" with
  | Some v => py_int (Some v) = Ok k
  | None => k = 0
  end →
  stored_index s = Ok k.
Proof.
  unfold stored_index. destruct (settings s !! "image_index"); congruence.
Qed.

(** [restore] over a store without a path: it goes on to the font size. *)
Lemma restore_no_path (s : State) (k : Z) :
  window_outcome s = Ok tt → stored_index s = Ok k →
  settings s !! "directory_path" = None →
  restore s
  = (outcome set_font_size (restore_window s),
     run set_font_size (restore_window s),
     (restore_window_trace s ++ stored_index_trace s)
     ++ [SettingsContains "directory_path" false]
     ++ trace set_font_size (restore_window s)).
Proof. intros Hw Hk Hd. rewrite restore_run. cbv zeta. by rewrite Hw, Hk, Hd. Qed.

(** [restore] over a store with a path text and an index that is a C
    [int]: it loads the directory and goes on to the font size. *)
Lemma restore_loads (s : State) (d : string) (k : Z) :
  window_outcome s = Ok tt → stored_index s = Ok k → in_c_int k →
  settings s !! "directory_path" = Some (VStr d) →
  let p := mkPath (normalize d) in
  let s2 := run (load_directory p k) (restore_window s) in
  restore s
  = (outcome set_font_size s2, run set_font_size s2,
     (restore_window_trace s ++ stored_index_trace s)
     ++ [SettingsContains "directory_path" true;
         SettingsValue "directory_path"]
     ++ trace (load_directory p k) (restore_window s)
     ++ trace set_font_size s2).
Proof.
  intros Hw Hk Hc Hd. rewrite restore_run. cbv zeta.
  rewrite Hw, Hk, Hd. unfold Path_of, load_directory_outcome.
  by rewrite decide_True.
Qed.

Lemma restore_selects (s : State) (d : string) (k : Z) :
  window_outcome s = Ok tt → stored_index s = Ok k → in_c_int k →
  settings s !! "directory_path" = Some (VStr d) →
  let imgs := scan_directory (mkPath (normalize d)) in
  SetCurrentIndex (model_index imgs k) ∈ trace restore s
  ∧ current (run restore s) = model_index imgs k.
Proof.
  intros Hw Hk Hc Hd. cbv zeta. unfold trace, run.
  rewrite (restore_loads s d k Hw Hk Hc Hd). cbn [fst snd]. split.
  - rewrite load_directory_trace_eq, !elem_of_app. right. right. left.
    by apply load_directory_trace_sets.
  - rewrite set_font_size_current. apply load_directory_current.
Qed.

(** C4.  A directory load from the dialog asks for index 0.  A session
    restore whose window values are absent or byte arrays, and which finds
    a path text, asks for the index stored under [image_index], as [int]
    reads it, and for 0 when none is stored; the index is a C [int].  The
    index asked for becomes the current one when the directory has such a
    row; when it has not, nothing is selected. *)
Theorem C4_directory_load_selects_index :
  (∀ s, choose_directory (initial_directory s) ≠ "" →
     let imgs :=
       scan_directory
         (mkPath (normalize (choose_directory (initial_directory s)))) in
     let s' := run select_and_load_directory s in
     SetCurrentIndex (model_index imgs 0) ∈ trace select_and_load_directory s
     ∧ current s' = model_index imgs 0
     ∧ (imgs ≠ [] → current s' = RowIndex 0)
     ∧ (imgs = [] → current s' = InvalidIndex))
  ∧ (∀ s d k,
       bytes_or_none (settings s !! "geometry") = Ok tt →
       bytes_or_none (settings s !! "window_state") = Ok tt →
       match settings s !! "image_index" with
       | Some v => py_int (Some v) = Ok k
       | None => k = 0
       end →
       in_c_int k →
       settings s !! "directory_path" = Some (VStr d) →
       let imgs := scan_directory (mkPath (normalize d)) in
       let s' := run restore s in
       SetCurrentIndex (model_index imgs k) ∈ trace restore s
       ∧ current s' = model_index imgs k
       ∧ ((0 ≤ k < Z.of_nat (length imgs))%Z →
            current s' = RowIndex (Z.to_nat k))
       ∧ (¬ (0 ≤ k < Z.of_nat (length imgs))%Z →
            current s' = InvalidIndex)).
Proof.
  split.
  - intros s H. cbv zeta.
    set (imgs := scan_directory _).
    assert (Hcur : current (run select_and_load_directory s)
                   = model_index imgs 0).
    { unfold run at 1. rewrite select_and_load_directory_run.
      cbn zeta. rewrite decide_False by exact H. cbn.
      apply load_directory_current. }
    split; [|split; [exact Hcur|split]].
    + unfold trace. rewrite select_and_load_directory_run.
      cbn zeta. rewrite decide_False by exact H. cbn [fst snd].
      rewrite load_directory_trace_eq, elem_of_app. right.
      apply load_directory_trace_sets, in_c_int_0.
    + intros Hne. rewrite Hcur.
      rewrite model_index_in_range; [done|apply in_c_int_0|].
      destruct imgs; [done|]. simpl. lia.
    + intros He. rewrite Hcur, He.
      apply model_index_out_of_range. simpl. lia.
  - intros s d k Hg Hw Hi Hc Hd. cbv zeta.
    pose proof (restore_selects s d k (window_outcome_ok s Hg Hw)
                  (stored_index_of s k Hi) Hc Hd) as [Ht Hcur].
    cbv zeta in Ht, Hcur.
    split; [exact Ht|]. split; [exact Hcur|]. rewrite Hcur. split.
    + by apply model_index_in_range.
    + apply model_index_out_of_range.
Qed.

Lemma contains_checks_app (l1 l2 : list Effect) :
  contains_checks (l1 ++ l2) = contains_checks l1 ++ contains_checks l2.
Proof.
  induction l1 as [ | e l1 IH]; [done|].
  destruct e; simpl; by rewrite ?IH.
Qed.

Lemma contains_checks_load_directory (p : Path) (imgs : list Image) (k : Z)
    (previous : QModelIndex) :
  contains_checks (load_directory_trace p imgs k previous) = [].
Proof.
  unfold load_directory_trace, slots_trace.
  destruct (is_valid previous), (is_valid (model_index imgs k));
    by case_decide.
Qed.

Lemma contains_checks_set_font_size (s : State) :
  contains_checks (trace set_font_size s) = [].
Proof.
  destruct (set_font_size_trace_cases s) as [->|[n ->]]; reflexivity.
Qed.

Lemma contains_checks_restore_window (s : State) :
  contains_checks (restore_window_trace s) = ["geometry"].
Proof.
  unfold restore_window_trace.
  by destruct (settings s !! "geometry") as [[ | | ]|].
Qed.

Lemma contains_checks_stored_index (s : State) :
  contains_checks (stored_index_trace s) = ["image_index"].
Proof.
  unfold stored_index_trace. by destruct (settings s !! "image_index").
Qed.

(** The presence checks of [restore]: the three guarded keys, as far as it
    gets. *)
Lemma contains_checks_restore (s : State) :
  ∃ l, contains_checks (trace restore s) ++ l
       = ["geometry"; "image_index"; "directory_path"].
Proof.
  unfold trace. rewrite restore_run. cbv zeta.
  destruct (window_outcome s); cbn [snd].
  2: { rewrite contains_checks_restore_window. by eexists. }
  destruct (stored_index s) as [k|e]; cbn [snd].
  2: { rewrite contains_checks_app, contains_checks_restore_window,
         contains_checks_stored_index. by eexists. }
  destruct (settings s !! "directory_path") as [v|]; cbn [snd].
  - destruct (Path_of normalize (Some v)) as [p|e]; cbn [snd].
    + destruct (load_directory_outcome k); cbn [snd];
        rewrite !contains_checks_app, contains_checks_restore_window,
          contains_checks_stored_index, load_directory_trace_eq,
          contains_checks_load_directory, ?contains_checks_set_font_size;
        by exists [].
    + rewrite !contains_checks_app, contains_checks_restore_window,
        contains_checks_stored_index. by exists [].
  - rewrite !contains_checks_app, contains_checks_restore_window,
      contains_checks_stored_index, contains_checks_set_font_size.
    by exists [].
Qed.

Lemma contains_checks_restore_elem (s : State) (key : string) :
  key ∈ contains_checks (trace restore s) →
  key = "geometry" ∨ key = "image_index" ∨ key = "directory_path".
Proof.
  destruct (contains_checks_restore s) as [l Hl]. intros H.
  assert (H' : key ∈ contains_checks (trace restore s) ++ l)
    by (apply elem_of_app; by left).
  rewrite Hl in H'. rewrite !elem_of_cons, elem_of_nil in H'. tauto.
Qed.

Lemma restore_font_point_size_raise (s : State) (e : Exn) :
  py_int (settings s !! "font_size") = Raise e →
  raises restore s ∧ font_point_size (run restore s) = font_point_size s.
Proof.
  intros Hfont.
  destruct (restore_window_frame s) as (_ & _ & _ & Hs & Hfw & _).
  assert (Hw : py_int (settings (restore_window s) !! "font_size") = Raise e)
    by (by rewrite Hs).
  assert (Hl : ∀ p k, py_int (settings (run (load_directory p k)
                                           (restore_window s)) !! "font_size")
                      = Raise e).
  { intros p k. rewrite load_directory_settings_ne by done. exact Hw. }
  assert (Hfl : ∀ p k s0, font_point_size (run (load_directory p k) s0)
                          = font_point_size s0).
  { intros p k s0.
    by destruct (load_directory_window p k s0) as (_ & _ & _ & -> & _). }
  destruct (set_font_size_raise _ _ Hw) as (Ho1 & Hr1 & Ht1).
  unfold raises, outcome at 1, run at 1. rewrite restore_run. cbv zeta.
  destruct (window_outcome s); cbn [fst snd]; [|split; [by eexists|done]].
  destruct (stored_index s) as [k|e0]; cbn [fst snd];
    [|split; [by eexists|done]].
  destruct (settings s !! "directory_path") as [d|]; cbn [fst snd].
  - destruct (Path_of normalize (Some d)) as [p|e0]; cbn [fst snd];
      [|split; [by eexists|done]].
    destruct (set_font_size_raise _ _ (Hl p k)) as (Ho2 & Hr2 & _).
    destruct (load_directory_outcome k); cbn [fst snd].
    + rewrite Ho2, Hr2, Hfl. split; [by eexists|done].
    + rewrite Hfl. split; [by eexists|done].
  - rewrite Ho1, Hr1. split; [by eexists|done].
Qed.

Ltac not_in_list H :=
  repeat (apply elem_of_cons in H as [H|H]; [discriminate|]);
  by apply elem_of_nil in H.

Lemma font_size_not_read_by_window (s : State) :
  SettingsValue "font_size" ∉ restore_window_trace s ++ stored_index_trace s.
Proof.
  unfold restore_window_trace, stored_index_trace. intros H.
  destruct (settings s !! "geometry") as [[ | | ]|],
    (settings s !! "image_index"); cbn in H; not_in_list H.
Qed.

Lemma font_size_not_read_by_load (p : Path) (imgs : list Image) (k : Z)
    (previous : QModelIndex) :
  SettingsValue "font_size" ∉ load_directory_trace p imgs k previous.
Proof.
  unfold load_directory_trace, slots_trace. intros H.
  destruct (is_valid previous), (is_valid (model_index imgs k));
    case_decide; cbn in H; not_in_list H.
Qed.

(** C9.  [set_font_size] reads [font_size] first, without asking
    [contains], and hands the value to [int]; when [int] raises, it raises
    the same and changes nothing.  [restore] runs it as its last step when
    no step before it raised, that is, when the stored geometry and window
    state are absent or byte arrays, [int] reads the stored index, and the
    stored path, if there is one, is a text and the index a C [int]; a
    [restore] that returned normally has read [font_size].  Whenever the
    stored value is absent or such that [int] raises, [restore] raises as
    well and the font keeps its size.  An absent value makes [int] raise
    [TypeError]. *)
Theorem C9_restore_raises_on_bad_font_size (s : State) :
  (∀ s0, (∃ rest, trace set_font_size s0 = SettingsValue "font_size" :: rest)
         ∧ contains_checks (trace set_font_size s0) = []
         ∧ (∀ e, py_int (settings s0 !! "font_size") = Raise e →
                 set_font_size s0 = (Raise e, s0, [SettingsValue "font_size"])))
  ∧ (∀ k,
       bytes_or_none (settings s !! "geometry") = Ok tt →
       bytes_or_none (settings s !! "window_state") = Ok tt →
       match settings s !! "image_index" with
       | Some v => py_int (Some v) = Ok k
       | None => k = 0
       end →
       (settings s !! "directory_path" = None
        ∨ ∃ d, settings s !! "directory_path" = Some (VStr d) ∧ in_c_int k) →
       ∃ s1 t1,
         trace restore s = t1 ++ trace set_font_size s1
         ∧ outcome restore s = outcome set_font_size s1
         ∧ run restore s = run set_font_size s1
         ∧ settings s1 !! "font_size" = settings s !! "font_size"
         ∧ font_point_size s1 = font_point_size s
         ∧ SettingsValue "font_size" ∉ t1)
  ∧ (outcome restore s = Ok tt → SettingsValue "font_size" ∈ trace restore s)
  ∧ (∀ e, py_int (settings s !! "font_size") = Raise e →
       raises restore s
       ∧ font_point_size (run restore s) = font_point_size s)
  ∧ ("font_size" ∉ contains_checks (trace restore s))
  ∧ py_int None = Raise TypeError.
Proof.
  split; [|split; [|split; [|split; [|split]]]].
  - intros s0. split; [apply set_font_size_trace_head|].
    split; [apply contains_checks_set_font_size|].
    intros e He. by rewrite set_font_size_run, He.
  - intros k Hg Hw Hi Hp.
    pose proof (window_outcome_ok s Hg Hw) as Hwo.
    pose proof (stored_index_of s k Hi) as Hk.
    destruct (restore_window_frame s) as (_ & _ & _ & Hs & Hf & _).
    destruct Hp as [Hd|(d & Hd & Hc)].
    + exists (restore_window s), ((restore_window_trace s ++ stored_index_trace s)
                                  ++ [SettingsContains "directory_path" false]).
      unfold trace at 1, outcome at 1, run at 1.
      rewrite (restore_no_path s k Hwo Hk Hd). cbn [fst snd].
      split; [by rewrite <- !app_assoc|]. split; [done|]. split; [done|].
      split; [by rewrite Hs|]. split; [done|].
      intros H. apply elem_of_app in H as [H|H].
      * by apply font_size_not_read_by_window in H.
      * not_in_list H.
    + set (p := mkPath (normalize d)).
      unfold trace at 1, outcome at 1, run at 1.
      rewrite (restore_loads s d k Hwo Hk Hc Hd). cbn [fst snd]. fold p.
      exists (run (load_directory p k) (restore_window s)),
        ((restore_window_trace s ++ stored_index_trace s)
         ++ [SettingsContains "directory_path" true;
             SettingsValue "directory_path"]
         ++ trace (load_directory p k) (restore_window s)).
      split; [by rewrite <- !app_assoc|]. split; [done|]. split; [done|].
      split; [by rewrite load_directory_settings_ne, Hs by done|].
      split.
      { destruct (load_directory_window p k (restore_window s))
          as (_ & _ & _ & -> & _). exact Hf. }
      intros H. apply elem_of_app in H as [H|H].
      * by apply font_size_not_read_by_window in H.
      * apply elem_of_cons in H as [H|H]; [discriminate|].
        apply elem_of_cons in H as [H|H]; [discriminate|].
        rewrite load_directory_trace_eq in H.
        by apply font_size_not_read_by_load in H.
  - unfold outcome, trace. rewrite restore_run. cbv zeta.
    destruct (window_outcome s); cbn [fst snd]; [|discriminate].
    destruct (stored_index s) as [k|e0]; cbn [fst snd]; [|discriminate].
    destruct (settings s !! "directory_path") as [d|]; cbn [fst snd].
    + destruct (Path_of normalize (Some d)) as [p|e0]; cbn [fst snd];
        [|discriminate].
      destruct (load_directory_outcome k); cbn [fst snd]; [|discriminate].
      intros _. rewrite !elem_of_app. right. right. right.
      destruct (set_font_size_trace_head
                  (run (load_directory p k) (restore_window s))) as [r ->].
      constructor.
    + intros _. rewrite !elem_of_app. right. right.
      destruct (set_font_size_trace_head (restore_window s)) as [r ->].
      constructor.
  - apply restore_font_point_size_raise.
  - intros H. apply contains_checks_restore_elem in H.
    destruct H as [H|[H|H]]; discriminate.
  - reflexivity.
Qed.
(** *** Presence checks before reads *)

Lemma unchecked_reads_load_directory (checked : list string) (p : Path)
    (imgs : list Image) (k : Z) (previous : QModelIndex) (rest : list Effect) :
  unchecked_reads checked (load_directory_trace p imgs k previous ++ rest)
  = unchecked_reads checked rest.
Proof.
  unfold load_directory_trace, slots_trace.
  destruct (is_valid previous), (is_valid (model_index imgs k));
    by case_decide.
Qed.

Lemma unchecked_reads_load_directory_only (checked : list string) (p : Path)
    (imgs : list Image) (k : Z) (previous : QModelIndex) :
  unchecked_reads checked (load_directory_trace p imgs k previous) = [].
Proof.
  rewrite <- (app_nil_r (load_directory_trace _ _ _ _)).
  apply unchecked_reads_load_directory.
Qed.

Lemma unchecked_reads_set_font_size (checked : list string) (s : State) :
  existsb (String.eqb "font_size") checked = false →
  unchecked_reads checked (trace set_font_size s) = ["font_size"].
Proof.
  intros H.
  destruct (set_font_size_trace_cases s) as [->|[n ->]];
    unfold unchecked_reads; by rewrite H.
Qed.

(** What [restore] reads unchecked: nothing when [restoreGeometry] raises,
    else [window_state], and [font_size] when it gets there. *)
Lemma restore_unchecked_reads (s : State) :
  match bytes_or_none (settings s !! "geometry") with
  | Raise _ => unchecked_reads [] (trace restore s) = []
  | Ok _ =>
      unchecked_reads [] (trace restore s) = ["window_state"]
      ∨ unchecked_reads [] (trace restore s) = ["window_state"; "font_size"]
  end.
Proof.
  unfold trace at 1 2 3. rewrite restore_run. cbv zeta.
  unfold window_outcome, restore_window_trace, stored_index_trace,
    stored_index.
  destruct (settings s !! "geometry") as [[gz|gt|g]|];
    destruct (settings s !! "window_state") as [[wz|wt|w]|];
    cbn [bytes_or_none fst snd]; try reflexivity; try (by left).
  all: destruct (settings s !! "image_index") as [i|];
    [destruct (py_int (Some i)) as [k|e]|]; cbn [fst snd];
    try (by left).
  all: destruct (settings s !! "directory_path") as [d|];
    [destruct (Path_of normalize (Some d)) as [p|e'];
     [destruct (load_directory_outcome _)|]|];
    cbn [fst snd]; rewrite ?load_directory_trace_eq; cbn;
    rewrite ?unchecked_reads_load_directory,
      ?unchecked_reads_load_directory_only;
    rewrite ?unchecked_reads_set_font_size by reflexivity;
    auto.
Qed.

Lemma restore_trace_window (s : State) :
  ∃ rest, trace restore s = restore_window_trace s ++ rest.
Proof.
  unfold trace. rewrite restore_run. cbv zeta.
  destruct (window_outcome s); cbn [snd];
    [|exists []; by rewrite app_nil_r].
  destruct (stored_index s) as [k|e]; cbn [snd];
    [|by eexists].
  destruct (settings s !! "directory_path") as [v|]; cbn [snd].
  - destruct (Path_of normalize (Some v)) as [p|e]; cbn [snd].
    + destruct (load_directory_outcome k); cbn [snd];
        rewrite <- !app_assoc; by eexists.
    + rewrite <- !app_assoc; by eexists.
  - rewrite <- !app_assoc; by eexists.
Qed.

Lemma restore_maximized (s : State) :
  maximized (run restore s) = maximized (restore_window s).
Proof.
  assert (Hmf : ∀ s0, maximized (run set_font_size s0) = maximized s0)
    by (intros; apply set_font_size_frame).
  assert (Hml : ∀ p k s0, maximized (run (load_directory p k) s0)
                          = maximized s0).
  { intros p k s0.
    by destruct (load_directory_window p k s0) as (_ & _ & -> & _). }
  unfold run at 1. rewrite restore_run. cbv zeta.
  destruct (window_outcome s); cbn [fst snd]; [|done].
  destruct (stored_index s); cbn [fst snd]; [|done].
  destruct (settings s !! "directory_path") as [d|]; cbn [fst snd].
  - destruct (Path_of normalize (Some d)); cbn [fst snd]; [|done].
    destruct (load_directory_outcome _); cbn [fst snd];
      by rewrite ?Hmf, Hml.
  - by rewrite Hmf.
Qed.

Lemma restore_without_path (s : State) :
  settings s !! "directory_path" = None →
  images (run restore s) = images s
  ∧ central (run restore s) = central s
  ∧ current (run restore s) = current s
  ∧ ∀ p, ModelLoadDirectory p ∉ trace restore s.
Proof.
  intros Hd. unfold run, trace. rewrite restore_run, Hd. cbv zeta.
  destruct (restore_window_frame s) as (Hi & Hc & Hp & _).
  destruct (set_font_size_frame (restore_window s)) as (Hi' & _).
  destruct (set_font_size_window (restore_window s)) as (_ & _ & Hp' & _).
  pose proof (set_font_size_current (restore_window s)) as Hc'.
  unfold restore_window_trace, stored_index_trace.
  destruct (window_outcome s); cbn [fst snd].
  2: { repeat split; try done. intros p H.
       destruct (settings s !! "geometry") as [[ | | ]|];
         cbn in H; not_in_list H. }
  destruct (stored_index s); cbn [fst snd].
  2: { repeat split; try done. intros p H.
       destruct (settings s !! "geometry") as [[ | | ]|],
         (settings s !! "image_index"); cbn in H; not_in_list H. }
  rewrite Hi', Hp', Hc'. repeat split; try done. intros p H.
  destruct (set_font_size_trace_cases (restore_window s)) as [Ht|[n Ht]];
    rewrite Ht in H;
    destruct (settings s !! "geometry") as [[ | | ]|],
      (settings s !! "image_index"); cbn in H; not_in_list H.
Qed.

(** C5, as the code has it.  In [restore] only [window_state] and
    [font_size] are read without a presence check; [contains] is asked
    for [geometry], [image_index] and [directory_path] and for no other
    key, and these three are read only after it has answered that they are
    present; [select_and_load_directory] reads nothing unchecked.  Unless
    [restoreGeometry] raises, [window_state] is read unchecked and the
    value read, none for an absent key, is what [restoreState] gets.  The
    guarded keys have defaults: without [geometry] the window is shown
    maximized; without [image_index] the stored directory is loaded with
    index 0; without [directory_path] no directory is loaded and the
    dialog is opened at the empty path. *)
Theorem C5_reads_behind_presence_checks (s : State) :
  (∀ key, key ∈ unchecked_reads [] (trace restore s) →
          key = "window_state" ∨ key = "font_size")
  ∧ (∀ key, key ∈ contains_checks (trace restore s) →
            key = "geometry" ∨ key = "image_index" ∨ key = "directory_path")
  ∧ (bytes_or_none (settings s !! "geometry") = Ok tt →
       "window_state" ∈ unchecked_reads [] (trace restore s)
       ∧ ∃ t1 t2,
           trace restore s
           = t1 ++ [SettingsValue "window_state";
                    RestoreState (settings s !! "window_state")] ++ t2)
  ∧ unchecked_reads [] (trace select_and_load_directory s) = []
  ∧ (settings s !! "geometry" = None →
       ShowMaximized ∈ trace restore s ∧ maximized (run restore s) = true)
  ∧ (∀ d, settings s !! "image_index" = None →
       bytes_or_none (settings s !! "geometry") = Ok tt →
       bytes_or_none (settings s !! "window_state") = Ok tt →
       settings s !! "directory_path" = Some (VStr d) →
       let imgs := scan_directory (mkPath (normalize d)) in
       SetCurrentIndex (model_index imgs 0) ∈ trace restore s
       ∧ current (run restore s) = model_index imgs 0)
  ∧ (settings s !! "directory_path" = None →
       images (run restore s) = images s
       ∧ (∀ p, ModelLoadDirectory p ∉ trace restore s)
       ∧ ∃ rest,
           trace select_and_load_directory s
           = [SettingsContains "directory_path" false;
              GetExistingDirectory (Some (VStr ""))
                (choose_directory (Some (VStr "")))] ++ rest).
Proof.
  pose proof (restore_unchecked_reads s) as Hreads.
  split; [|split; [|split; [|split; [|split; [|split]]]]].
  - intros key Hkey.
    destruct (bytes_or_none (settings s !! "geometry"));
      [destruct Hreads as [H|H]|]; rewrite ?H, ?Hreads in Hkey;
      rewrite ?elem_of_cons, elem_of_nil in Hkey; tauto.
  - apply contains_checks_restore_elem.
  - intros Hg. rewrite Hg in Hreads. split.
    + destruct Hreads as [H|H]; rewrite H; constructor.
    + destruct (restore_trace_window s) as [rest Hrest]. rewrite Hrest.
      unfold restore_window_trace.
      destruct (settings s !! "geometry") as [g|].
      * rewrite Hg.
        exists [SettingsContains "geometry" true; SettingsValue "geometry";
                RestoreGeometry (Some g)], rest.
        by rewrite <- !app_assoc.
      * exists [SettingsContains "geometry" false; ShowMaximized], rest.
        reflexivity.
  - unfold trace at 1. rewrite select_and_load_directory_run. cbv zeta.
    unfold dialog_trace.
    destruct (decide _), (settings s !! "directory_path"); cbn [fst snd];
      rewrite ?load_directory_trace_eq; cbn;
      rewrite ?unchecked_reads_load_directory_only; reflexivity.
  - intros Hg. split.
    + destruct (restore_trace_window s) as [rest ->].
      unfold restore_window_trace. rewrite Hg.
      rewrite elem_of_app. left. rewrite !elem_of_cons. auto.
    + rewrite restore_maximized. unfold restore_window. rewrite Hg.
      unfold apply_window_state.
      destruct (settings s !! "window_state") as [[wz|wt|w]|]; try done.
      by destruct (state_accepted pf w).
  - intros d Hi Hg Hw Hd.
    apply (restore_selects s d 0 (window_outcome_ok s Hg Hw));
      first [done | by (unfold stored_index; rewrite Hi) | apply in_c_int_0].
  - intros Hd. destruct (restore_without_path s Hd) as (Hi & _ & _ & Hl).
    split; [exact Hi|]. split; [exact Hl|].
    unfold trace. rewrite select_and_load_directory_run. cbv zeta.
    unfold dialog_trace, initial_directory. rewrite Hd.
    destruct (decide _); cbn [fst snd]; eexists; [by rewrite app_nil_r|done].
Qed.
(** ** Further properties of the main window *)

(** *** When [restore] returns *)

Lemma outcome_set_font_size (s : State) :
  outcome set_font_size s
  = match py_int (settings s !! "font_size") with
    | Ok z =>
        match setPointSize (font_point_size s) z with
        | Ok _ => Ok tt
        | Raise e => Raise e
        end
    | Raise e => Raise e
    end.
Proof.
  unfold outcome. rewrite set_font_size_run.
  destruct (py_int (settings s !! "font_size")) as [z|e]; [|done].
  by destruct (setPointSize (font_point_size s) z).
Qed.

Lemma setPointSize_ok (size z : Z) :
  (∃ n, setPointSize size z = Ok n) ↔ in_c_int z.
Proof.
  unfold setPointSize. case_decide; split; try done.
  - by eexists.
  - by intros [n ?].
Qed.

(** What a [restore] that returns normally has found in the settings. *)
Lemma restore_ok_inv (s : State) :
  outcome restore s = Ok tt →
  window_outcome s = Ok tt
  ∧ ∃ k, stored_index s = Ok k
         ∧ (settings s !! "directory_path" = None
            ∨ ∃ d, settings s !! "directory_path" = Some (VStr d)
                   ∧ in_c_int k)
         ∧ ∃ z, py_int (settings s !! "font_size") = Ok z ∧ in_c_int z.
Proof.
  assert (Hfont : ∀ s0, settings s0 !! "font_size" = settings s !! "font_size" →
            outcome set_font_size s0 = Ok tt →
            ∃ z, py_int (settings s !! "font_size") = Ok z ∧ in_c_int z).
  { intros s0 Hs0. rewrite outcome_set_font_size, Hs0.
    destruct (py_int (settings s !! "font_size")) as [z|e]; [|done].
    destruct (setPointSize (font_point_size s0) z) as [n|e] eqn:Hn; [|done].
    intros _. exists z. split; [done|].
    apply (setPointSize_ok (font_point_size s0)). by eexists. }
  unfold outcome at 1. rewrite restore_run. cbv zeta.
  destruct (window_outcome s) as [[]|e]; cbn [fst snd]; [|discriminate].
  destruct (stored_index s) as [k|e]; cbn [fst snd]; [|discriminate].
  destruct (settings s !! "directory_path") as [v|] eqn:Hd.
  - unfold Path_of. destruct v as [z|d|b]; cbn [fst snd]; try discriminate.
    unfold load_directory_outcome.
    destruct (decide (in_c_int k)) as [Hk|Hk]; cbn [fst snd];
      [|discriminate].
    intros Hok. split; [done|]. exists k. split; [done|].
    split; [right; by exists d|].
    apply (Hfont _) in Hok; [done|].
    by rewrite load_directory_settings_ne, restore_window_settings.
  - intros Hok. split; [done|]. exists k. split; [done|].
    split; [by left|].
    apply (Hfont _) in Hok; [done|].
    by rewrite restore_window_settings.
Qed.

(** X1.  When [restore] returns normally, the stored geometry and window
    state are each absent or a byte array, [int] reads the stored
    [image_index] if there is one, the stored [directory_path], if there
    is one, is a text and the index is then a C [int], and [font_size] is
    stored, [int] reads it and gives a C [int]. *)
Theorem X1_restore_returns_only_if (s : State) :
  outcome restore s = Ok tt →
  bytes_or_none (settings s !! "geometry") = Ok tt
  ∧ bytes_or_none (settings s !! "window_state") = Ok tt
  ∧ (∃ k, match settings s !! "image_index" with
          | Some v => py_int (Some v) = Ok k
          | None => k = 0
          end
          ∧ (settings s !! "directory_path" = None
             ∨ ∃ d, settings s !! "directory_path" = Some (VStr d)
                    ∧ in_c_int k))
  ∧ (∃ z, py_int (settings s !! "font_size") = Ok z ∧ in_c_int z).
Proof.
  intros Hok.
  apply restore_ok_inv in Hok as (Hw & k & Hk & Hd & Hf).
  apply window_outcome_inv in Hw as [Hg Hw].
  split; [done|]. split; [done|]. split; [|done].
  exists k. split; [|done].
  unfold stored_index in Hk.
  destruct (settings s !! "image_index"); congruence.
Qed.

(** X2.  When the stored geometry and window state are absent or byte
    arrays and [int] raises on the stored [image_index], [restore] raises
    the exception of [int] right there: no directory is loaded even if a
    path is stored, [font_size] is never read, and the image list, the
    selection, the visible page, the settings and the font size are as
    before. *)
Theorem X2_bad_image_index_aborts_restore (s : State) (v : SVal) (e : Exn) :
  bytes_or_none (settings s !! "geometry") = Ok tt →
  bytes_or_none (settings s !! "window_state") = Ok tt →
  settings s !! "image_index" = Some v →
  py_int (Some v) = Raise e →
  let s' := run restore s in
  outcome restore s = Raise e
  ∧ (∀ p, ModelLoadDirectory p ∉ trace restore s)
  ∧ (SettingsValue "font_size" ∉ trace restore s)
  ∧ last (trace restore s) = Some (SettingsValue "image_index")
  ∧ images s' = images s ∧ current s' = current s ∧ central s' = central s
  ∧ settings s' = settings s ∧ font_point_size s' = font_point_size s.
Proof.
  intros Hg Hw Hv He. cbv zeta. unfold outcome, trace, run. rewrite restore_run.
  cbv zeta. rewrite (window_outcome_ok s Hg Hw).
  unfold stored_index, stored_index_trace, restore_window_trace.
  rewrite Hv, He. cbn [fst snd].
  destruct (restore_window_frame s) as (Hi & Hc & Hp & Hs & Hf & _).
  split; [done|].
  split; [|split; [|split]].
  - intros p H. destruct (settings s !! "geometry") as [[ | | ]|];
      cbn in H; not_in_list H.
  - intros H. destruct (settings s !! "geometry") as [[ | | ]|];
      cbn in H; not_in_list H.
  - by destruct (settings s !! "geometry") as [[ | | ]|].
  - done.
Qed.

(** X3.  After a [restore] that returned normally: with a stored path the
    image viewer page is shown, the image list holds the images of that
    directory and the normal form of the path is stored again; without a
    stored path nothing is loaded, and the page, the image list and the
    selection are as before. *)
Theorem X3_restore_loads_stored_directory (s : State) :
  outcome restore s = Ok tt →
  let s' := run restore s in
  match settings s !! "directory_path" with
  | Some v =>
      ∃ d, v = VStr d
           ∧ central s' = ImageViewerPanel
           ∧ images s' = scan_directory (mkPath (normalize d))
           ∧ settings s' !! "directory_path" = Some (VStr (normalize d))
  | None =>
      central s' = central s ∧ images s' = images s ∧ current s' = current s
      ∧ (∀ p, ModelLoadDirectory p ∉ trace restore s)
  end.
Proof.
  intros Hok. apply restore_ok_inv in Hok as (Hw & k & Hk & Hd & _).
  cbv zeta.
  destruct Hd as [Hd|(d & Hd & Hc)]; rewrite Hd.
  - destruct (restore_without_path s Hd) as (Hi & Hp & Hcur & Hl). done.
  - exists d. split; [done|]. unfold run at 1 2 3.
    rewrite (restore_loads s d k Hw Hk Hc Hd). cbn [fst snd].
    set (s1 := run (load_directory (mkPath (normalize d)) k)
                 (restore_window s)).
    destruct (set_font_size_window s1) as (_ & _ & Hp' & Hs' & _).
    destruct (set_font_size_frame s1) as (Hi' & _).
    rewrite Hp', Hi', Hs'. unfold s1.
    rewrite load_directory_central, decide_True by done.
    rewrite load_directory_path_stored.
    by destruct (load_directory_window (mkPath (normalize d)) k
                   (restore_window s)) as (_ & _ & _ & _ & _ & -> & _).
Qed.

Lemma restore_window_fields (s : State) :
  let s' := run restore s in
  geometry s' = geometry (restore_window s)
  ∧ window_state s' = window_state (restore_window s)
  ∧ maximized s' = maximized (restore_window s)
  ∧ closed s' = closed (restore_window s).
Proof.
  cbv zeta. unfold run at 1 2 3 4. rewrite restore_run. cbv zeta.
  assert (Hf : ∀ s0, geometry (run set_font_size s0) = geometry s0
                     ∧ window_state (run set_font_size s0) = window_state s0
                     ∧ maximized (run set_font_size s0) = maximized s0
                     ∧ closed (run set_font_size s0) = closed s0).
  { intros s0. destruct (set_font_size_window s0) as (-> & -> & _ & _ & -> & _).
    by destruct (set_font_size_frame s0) as (_ & -> & _). }
  destruct (window_outcome s); cbn [fst snd]; [|done].
  destruct (stored_index s) as [k|e]; cbn [fst snd]; [|done].
  destruct (settings s !! "directory_path") as [v|]; cbn [fst snd].
  - destruct (Path_of normalize (Some v)) as [p|e]; cbn [fst snd]; [|done].
    destruct (load_directory_window p k (restore_window s))
      as (Hg & Hw & Hm & _ & Hc & _).
    destruct (load_directory_outcome k); cbn [fst snd].
    + destruct (Hf (run (load_directory p k) (restore_window s)))
        as (-> & -> & -> & ->). done.
    + done.
  - by destruct (Hf (restore_window s)) as (-> & -> & -> & ->).
Qed.

(** X4.  Closing and starting again: when the toolkit accepts the bytes
    that [closeEvent] saved, the geometry, with the maximized flag saved
    in it, and the window state are the ones the [restore] of the next
    session gives the new window, whatever that window started with. *)
Theorem X4_close_then_restore_window (s : State) (g w : string) (pt : Z)
    (m : bool) :
  geometry_flag pf (geometry s) = Some m →
  state_accepted pf (window_state s) = true →
  let next :=
    next_session pf scan_directory normalize (run closeEvent s) g w pt in
  geometry next = geometry s
  ∧ window_state next = window_state s
  ∧ maximized next = m
  ∧ closed next = false.
Proof.
  intros Hflag Hacc. cbv zeta. unfold next_session.
  destruct (restore_window_fields
              (fresh_window (settings (run closeEvent s)) g w pt))
    as (-> & -> & -> & ->).
  unfold restore_window. cbn [settings fresh_window].
  assert (Hg : settings (run closeEvent s) !! "geometry"
               = Some (VBytes (geometry s))).
  { unfold run, closeEvent. simpl.
    rewrite lookup_insert_ne by done. apply lookup_insert_eq. }
  assert (Hw : settings (run closeEvent s) !! "window_state"
               = Some (VBytes (window_state s))).
  { unfold run, closeEvent. simpl. apply lookup_insert_eq. }
  rewrite Hg, Hw. cbn [bytes_or_none].
  unfold apply_window_state, apply_geometry. rewrite Hflag, Hacc.
  repeat split.
Qed.

(** *** The dialog and the settings keys *)

(** X5.  The dialog of [select_and_load_directory] opens at the directory
    loaded last: after any [load_directory] of [path], the next call asks
    [contains], reads the stored path and hands [str(path)] to the dialog as
    the initial directory.  While no path is stored it hands over the empty
    text and reads nothing. *)
Theorem X5_dialog_opens_at_last_loaded_directory (p : Path) (k : Z) (s : State) :
  let s1 := run (load_directory p k) s in
  let dir := Some (VStr (path_str p)) in
  (∃ rest, trace select_and_load_directory s1
           = [SettingsContains "directory_path" true;
              SettingsValue "directory_path";
              GetExistingDirectory dir (choose_directory dir)] ++ rest)
  ∧ (settings s !! "directory_path" = None →
     ∃ rest, trace select_and_load_directory s
             = [SettingsContains "directory_path" false;
                GetExistingDirectory (Some (VStr ""))
                  (choose_directory (Some (VStr "")))] ++ rest).
Proof.
  cbv zeta. split.
  - unfold trace. rewrite select_and_load_directory_run. cbv zeta.
    unfold dialog_trace, initial_directory.
    rewrite load_directory_path_stored.
    destruct (decide _); cbn [fst snd]; eexists; [by rewrite app_nil_r|done].
  - intros Hd. unfold trace. rewrite select_and_load_directory_run. cbv zeta.
    unfold dialog_trace, initial_directory. rewrite Hd.
    destruct (decide _); cbn [fst snd]; eexists; [by rewrite app_nil_r|done].
Qed.

Lemma tag_list_edit_settings (e : TagEdit) (s : State) :
  settings (run (tag_list_edit e) s) = settings s.
Proof.
  unfold run.
  destruct e;
    cbv beta iota zeta delta
      [tag_list_edit edit_signal tag_list_slots emit
       update_image_list_model_tags model_update_tags
       bind ret raise modify gets log lift];
    cbn;
    (destruct (editor_image_index s) as [ | r]; cbn; [done|]);
    destruct (images s !! r); reflexivity.
Qed.

Lemma select_row_run (k : Z) (s : State) :
  handle (SelectsRow k) s
  = (Ok tt, made_current (model_index (images s) k) s,
     SetCurrentIndex (model_index (images s) k)
       :: slots_trace (bool_decide (model_index (images s) k ≠ current s))
            (images s) (model_index (images s) k)).
Proof.
  cbv beta iota zeta delta [handle bind gets].
  rewrite setCurrentIndex_run. reflexivity.
Qed.

Lemma restore_font_size_setting (s : State) :
  settings (run restore s) !! "font_size" = settings s !! "font_size".
Proof.
  assert (Hf : ∀ s0, settings (run set_font_size s0) = settings s0).
  { intros s0. by destruct (set_font_size_window s0) as (_ & _ & _ & -> & _). }
  unfold run at 1. rewrite restore_run. cbv zeta.
  destruct (window_outcome s); cbn [fst snd];
    [|by rewrite restore_window_settings].
  destruct (stored_index s) as [k|e]; cbn [fst snd];
    [|by rewrite restore_window_settings].
  destruct (settings s !! "directory_path") as [v|]; cbn [fst snd].
  - destruct (Path_of normalize (Some v)) as [p|e]; cbn [fst snd];
      [|by rewrite restore_window_settings].
    destruct (load_directory_outcome k); cbn [fst snd];
      rewrite ?Hf, load_directory_settings_ne by done;
      by rewrite restore_window_settings.
  - by rewrite Hf, restore_window_settings.
Qed.

(** X6.  The handler of an event writes only the settings keys of its kind:
    a selection may write [image_index], a directory load [directory_path]
    and [image_index], a close [geometry] and [window_state], a tag edit
    and the font size slot none.  No handler and no [restore] ever writes
    [font_size]. *)
Theorem X6_handlers_write_only_their_keys (ev : Event) (s : State) :
  (∀ key, key ∉ written_keys ev →
          settings (run (handle ev) s) !! key = settings s !! key)
  ∧ settings (run (handle ev) s) !! "font_size" = settings s !! "font_size"
  ∧ settings (run restore s) !! "font_size" = settings s !! "font_size".
Proof.
  assert (H : ∀ key, key ∉ written_keys ev →
                     settings (run (handle ev) s) !! key = settings s !! key).
  { intros key Hkey. destruct ev as [k|e| | | ]; cbn in Hkey.
    - unfold run. rewrite select_row_run. cbn [fst snd].
      apply made_current_settings_ne. intros ->. apply Hkey. constructor.
    - change (handle (EditsTags e)) with (tag_list_edit e).
      by rewrite tag_list_edit_settings.
    - unfold run, handle. rewrite select_and_load_directory_run. cbv zeta.
      destruct (decide _); cbn [fst snd]; [done|].
      apply load_directory_settings_ne.
      + intros ->. apply Hkey. do 2 constructor.
      + intros ->. apply Hkey. constructor.
    - change (handle AppliesFontSize) with set_font_size.
      by destruct (set_font_size_window s) as (_ & _ & _ & -> & _).
    - unfold run, handle, closeEvent. simpl.
      rewrite !lookup_insert_ne; [done|..].
      + intros <-. apply Hkey. constructor.
      + intros <-. apply Hkey. do 2 constructor. }
  split; [exact H|]. split.
  - apply H. destruct ev; cbn; intros Hin; not_in_list Hin.
  - apply restore_font_size_setting.
Qed.

Lemma model_index_nil (k : Z) : model_index [] k = InvalidIndex.
Proof. unfold model_index. case_decide as H; [simpl in H; lia|done]. Qed.

Lemma made_current_invalid_cleared (s : State) :
  made_current InvalidIndex (cleared s) = cleared s.
Proof.
  unfold made_current.
  destruct (decide (InvalidIndex = current (cleared s))) as [ | H]; [done|].
  destruct H. by rewrite cleared_current.
Qed.

(** X7.  Loading a directory without images with a target index that is a
    C [int], from a state in which the tag list is that of the selection:
    the image list, the tag list and the tag count table are empty,
    nothing is selected, the viewer page is shown and the path is stored
    all the same.  The stored [image_index] becomes -1 when an image was
    selected before, and stays as it was otherwise. *)
Theorem X7_loading_an_empty_directory (p : Path) (k : Z) (s : State) :
  in_c_int k →
  scan_directory p = [] →
  tags_in_sync s →
  let s' := run (load_directory p k) s in
  images s' = []
  ∧ current s' = InvalidIndex
  ∧ editor_image_index s' = InvalidIndex
  ∧ tag_list s' = []
  ∧ tag_counts s' = ∅
  ∧ central s' = ImageViewerPanel
  ∧ settings s' !! "directory_path" = Some (VStr (path_str p))
  ∧ settings s' !! "image_index"
    = (if is_valid (current s) then Some (VInt (-1))
       else settings s !! "image_index").
Proof.
  intros Hk Hscan [He Ht]. cbv zeta.
  pose proof (load_directory_path_stored p k s) as Hpath.
  rewrite load_directory_state in *. rewrite Hscan in *.
  unfold target_selected in *. rewrite decide_True in * by done.
  rewrite model_index_nil in *.
  rewrite made_current_invalid_cleared in *.
  unfold cleared. cbn.
  destruct (current s) as [ | r] eqn:Hc; cbn.
  - rewrite He, Ht. cbn. repeat split.
    + apply lookup_insert_eq.
    + by rewrite lookup_insert_ne.
  - repeat split.
    + rewrite lookup_insert_ne by done. apply lookup_insert_eq.
    + apply lookup_insert_eq.
Qed.

(** The state [restore] leaves once the window values and the index are
    read. *)
Lemma restore_state (s : State) (k : Z) :
  window_outcome s = Ok tt → stored_index s = Ok k →
  run restore s
  = match settings s !! "directory_path" with
    | None => run set_font_size (restore_window s)
    | Some v =>
        match Path_of normalize (Some v) with
        | Ok p =>
            if decide (in_c_int k)
            then run set_font_size (run (load_directory p k) (restore_window s))
            else run (load_directory p k) (restore_window s)
        | Raise _ => restore_window s
        end
    end.
Proof.
  intros Hw Hk. unfold run at 1. rewrite restore_run. cbv zeta.
  rewrite Hw, Hk.
  destruct (settings s !! "directory_path") as [v|]; [|done].
  destruct (Path_of normalize (Some v)); [|done].
  unfold load_directory_outcome. by case_decide.
Qed.

(** What [load_directory] leaves under [image_index]: the row it made
    current, else the -1 of the clearing step, else what was there. *)
Lemma load_directory_image_index (p : Path) (k : Z) (s : State) :
  settings (run (load_directory p k) s) !! "image_index"
  = match model_index (scan_directory p) k with
    | RowIndex r => Some (VInt (Z.of_nat r))
    | InvalidIndex =>
        if is_valid (current s) then Some (VInt (-1))
        else settings s !! "image_index"
    end.
Proof.
  assert (Hclear : settings (cleared (loaded p (scan_directory p) s))
                     !! "image_index"
                   = if is_valid (current s) then Some (VInt (-1))
                     else settings s !! "image_index").
  { unfold cleared. cbn. destruct (current s); cbn.
    - by rewrite lookup_insert_ne.
    - apply lookup_insert_eq. }
  rewrite load_directory_state. unfold target_selected. case_decide as Hk.
  - cbn. destruct (model_index (scan_directory p) k) as [ | r] eqn:Hi.
    + by rewrite made_current_invalid_cleared.
    + unfold made_current. rewrite cleared_current.
      rewrite decide_False by discriminate. cbn. apply lookup_insert_eq.
  - unfold model_index. rewrite decide_False by tauto. exact Hclear.
Qed.

Lemma tag_list_edit_frame (e : TagEdit) (s : State) :
  current (run (tag_list_edit e) s) = current s
  ∧ length (images (run (tag_list_edit e) s)) = length (images s).
Proof.
  unfold run.
  destruct e;
    cbv beta iota zeta delta
      [tag_list_edit edit_signal tag_list_slots emit
       update_image_list_model_tags model_update_tags
       bind ret raise modify gets log lift];
    cbn;
    (destruct (editor_image_index s) as [ | r]; cbn; [done|]);
    destruct (images s !! r); cbn; by rewrite ?length_insert.
Qed.

(** *** The tag list model follows the selection *)

Lemma model_index_valid (imgs : list Image) (k : Z) (r : nat) :
  model_index imgs k = RowIndex r →
  k = Z.of_nat r ∧ model_index imgs (Z.of_nat r) = RowIndex r.
Proof.
  unfold model_index. case_decide as H; [|discriminate].
  intros [= <-]. rewrite Z2Nat.id by lia. split; [done|].
  by rewrite decide_True.
Qed.

Lemma model_index_lookup (imgs : list Image) (k : Z) (r : nat) :
  model_index imgs k = RowIndex r → ∃ im, imgs !! r = Some im.
Proof.
  unfold model_index. case_decide as H; [|discriminate].
  intros [= <-]. apply lookup_lt_is_Some. lia.
Qed.

Lemma model_index_length (a b : list Image) (k : Z) :
  length a = length b → model_index a k = model_index b k.
Proof. intros H. unfold model_index. by rewrite H. Qed.

Lemma invariant_frame (s s' : State) :
  images s' = images s → current s' = current s →
  editor_image_index s' = editor_image_index s → tag_list s' = tag_list s →
  window_invariant s → window_invariant s'.
Proof.
  unfold window_invariant, tags_follow_selection, selection_in_model.
  by intros -> -> -> ->.
Qed.

Lemma invariant_selected (i : QModelIndex) (s : State) :
  (∀ r, i = RowIndex r → model_index (images s) (Z.of_nat r) = RowIndex r) →
  window_invariant (selected i (set_current i s)).
Proof.
  intros Hi. split; [split; [reflexivity|]|].
  - intros r Hr. cbn in Hr. subst i.
    destruct (model_index_lookup _ _ _ (Hi r eq_refl)) as [im Him].
    exists im. cbn. by rewrite Him.
  - intros r Hr. cbn in Hr. cbn. by apply Hi.
Qed.

Lemma invariant_made_current (k : Z) (s : State) :
  window_invariant s →
  window_invariant (made_current (model_index (images s) k) s).
Proof.
  intros H. unfold made_current.
  destruct (decide _); [done|]. apply invariant_selected.
  intros r Hr. by apply model_index_valid in Hr as [_ ?].
Qed.

Lemma invariant_cleared (s : State) :
  editor_image_index s = current s → window_invariant (cleared s).
Proof.
  intros He. unfold cleared.
  destruct (current s) as [ | r] eqn:Hc; simpl.
  - split; [split|]; cbn; [done|discriminate|discriminate].
  - by apply invariant_selected.
Qed.

Lemma load_directory_invariant (p : Path) (k : Z) (s : State) :
  window_invariant s → window_invariant (run (load_directory p k) s).
Proof.
  intros [[He _] _]. rewrite load_directory_state.
  assert (H : window_invariant (cleared (loaded p (scan_directory p) s)))
    by (by apply invariant_cleared).
  unfold target_selected. case_decide; [|exact H].
  apply (invariant_frame
           (made_current (model_index (scan_directory p) k)
              (cleared (loaded p (scan_directory p) s)))); try reflexivity.
  pose proof (invariant_made_current k _ H) as H'.
  by rewrite cleared_images in H'.
Qed.

Lemma set_font_size_invariant (s : State) :
  window_invariant s → window_invariant (run set_font_size s).
Proof.
  destruct (set_font_size_frame s) as (Hi & _ & Ht & He).
  apply invariant_frame; [done|apply set_font_size_current|done|done].
Qed.

Lemma restore_window_invariant (s : State) :
  window_invariant s → window_invariant (restore_window s).
Proof.
  destruct (restore_window_frame s) as (Hi & Hc & _ & _ & _ & Ht & He & _).
  by apply invariant_frame.
Qed.

Lemma restore_invariant (s : State) :
  window_invariant s → window_invariant (run restore s).
Proof.
  intros H. apply restore_window_invariant in H.
  unfold run. rewrite restore_run. cbv zeta.
  destruct (window_outcome s); [|done].
  destruct (stored_index s); [|done].
  destruct (settings s !! "directory_path") as [d|]; cbn [fst snd].
  - destruct (Path_of normalize (Some d)); cbn [fst snd]; [|done].
    destruct (load_directory_outcome _); cbn [fst snd].
    + by apply set_font_size_invariant, load_directory_invariant.
    + by apply load_directory_invariant.
  - by apply set_font_size_invariant.
Qed.

(** An edit while the editor holds the index of an image: the new tags are
    written to that image and counted. *)
Lemma tag_list_edit_run (e : TagEdit) (s : State) (r : nat) (im : Image) :
  editor_image_index s = RowIndex r →
  images s !! r = Some im →
  let new := apply_edit e (tag_list s) in
  let imgs := <[r := mkImage (image_path im) new]> (images s) in
  tag_list_edit e s
  = (Ok tt,
     set_tag_counts (count_tags imgs) (set_images imgs (set_tag_list new s)),
     [TagListEmit (edit_signal e); ModelUpdateTags (RowIndex r) new;
      ImageListDataChanged; CountTags]).
Proof.
  intros He Him.
  destruct e;
    cbv beta iota zeta delta
      [tag_list_edit edit_signal tag_list_slots emit
       update_image_list_model_tags model_update_tags
       bind ret raise modify gets log lift];
    cbn; rewrite He; cbn; rewrite Him; reflexivity.
Qed.

(** An edit while the editor holds no index: the tag list is changed, and
    the write-back finds no image. *)
Lemma tag_list_edit_stray (e : TagEdit) (s : State) :
  editor_image_index s = InvalidIndex →
  let new := apply_edit e (tag_list s) in
  tag_list_edit e s
  = (Raise IndexError, set_tag_list new s,
     [TagListEmit (edit_signal e); ModelUpdateTags InvalidIndex new]).
Proof.
  intros He.
  destruct e;
    cbv beta iota zeta delta
      [tag_list_edit edit_signal tag_list_slots emit
       update_image_list_model_tags model_update_tags
       bind ret raise modify gets log lift];
    cbn; rewrite He; reflexivity.
Qed.

Lemma tag_list_edit_invariant (e : TagEdit) (s : State) :
  window_invariant s → window_invariant (run (tag_list_edit e) s).
Proof.
  intros [[He Ht] Hm].
  destruct (current s) as [ | r] eqn:Hc.
  - unfold run. rewrite (tag_list_edit_stray e s He). cbn [fst snd].
    split; [split|]; cbn; rewrite ?Hc; try done; discriminate.
  - destruct (Ht r eq_refl) as (im & Him & _).
    unfold run. rewrite (tag_list_edit_run e s r im He Him). cbn [fst snd].
    assert (Hr : (r < length (images s))%nat) by (by eapply lookup_lt_Some).
    split; [split|]; cbn; rewrite ?Hc; try done.
    + intros r' Hr'. assert (r' = r) as -> by congruence.
      eexists. split; [by apply list_lookup_insert_eq|done].
    + intros r' Hr'. cbn in Hr'. assert (r' = r) as -> by congruence.
      cbn. rewrite (model_index_length _ (images s)) by apply length_insert.
      by apply Hm.
Qed.

Lemma handle_invariant (ev : Event) (s : State) :
  window_invariant s → window_invariant (run (handle ev) s).
Proof.
  intros H. destruct ev as [k|e| | | ].
  - unfold run. rewrite select_row_run. cbn [fst snd].
    by apply invariant_made_current.
  - by apply tag_list_edit_invariant.
  - unfold run, handle. rewrite select_and_load_directory_run. cbv zeta.
    destruct (decide _); cbn [fst snd]; [done|].
    by apply load_directory_invariant.
  - by apply set_font_size_invariant.
  - revert H. by apply invariant_frame.
Qed.

Lemma fresh_window_invariant (stored : gmap string SVal) (g w : string)
    (pt : Z) :
  window_invariant (fresh_window stored g w pt).
Proof. split; [split|]; [done|discriminate|discriminate]. Qed.

End Properties.

(** *** Every state of a run *)

Lemma reachable_invariant (s : State) : reachable s → window_invariant s.
Proof.
  induction 1 as [pf scan norm stored g w pt Hok|pf scan choose norm s ev Hs IH].
  - apply restore_invariant, fresh_window_invariant.
  - by apply handle_invariant.
Qed.

(** What an edit needs of the state it meets: the editor holds the row of
    the selected image, and the tag list holds that image's tags. *)
Lemma reachable_enabled (s : State) (e : TagEdit) :
  reachable s → enabled s (EditsTags e) →
  ∃ r im, current s = RowIndex r ∧ editor_image_index s = RowIndex r
          ∧ images s !! r = Some im ∧ tag_list s = image_tags im
          ∧ model_index (images s) (Z.of_nat r) = RowIndex r.
Proof.
  intros Hreach [im Him].
  destruct (reachable_invariant s Hreach) as [[He Ht] Hm].
  destruct (current s) as [ | r] eqn:Hc; [discriminate|]. simpl in Him.
  destruct (Ht r eq_refl) as (im' & Him' & Htags).
  exists r, im'. by rewrite (Hm r Hc).
Qed.

(** C1.  In every state a run of the window can reach, tag edits with
    nothing selected included, the editor's recorded index is the current
    index, and while an image is selected the image tag list model holds
    exactly the tags of the image at the current index.  A change of the
    selection to no image empties the tag list model.  An edit of the
    selected image's tags, be it a data change, a row removal or a row
    move, is written into the image list model at that index within the
    dispatch of the edit's own signal, so before any later change of
    selection: selecting any other row and coming back shows the edited
    tags. *)
Theorem C1_tag_list_follows_selection_and_is_flushed
    (pf : Platform) (scan_directory : Path → list Image)
    (choose_directory : option SVal → string) (normalize : string → string)
    (s : State) :
  reachable s →
  tags_follow_selection s
  ∧ (∀ s0, current s0 ≠ InvalidIndex →
       tag_list (run clearCurrentIndex s0) = []
       ∧ tag_list (run (setCurrentIndex InvalidIndex) s0) = [])
  ∧ (∀ e, enabled s (EditsTags e) →
       let s1 := run (tag_list_edit e) s in
       let new := apply_edit e (tag_list s) in
       outcome (tag_list_edit e) s = Ok tt
       ∧ trace (tag_list_edit e) s
         = [TagListEmit (edit_signal e); ModelUpdateTags (current s) new;
            ImageListDataChanged; CountTags]
       ∧ current s1 = current s
       ∧ tag_list s1 = new
       ∧ tags_at (images s1) (current s) = new
       ∧ (∀ m,
            let h := handle pf scan_directory choose_directory normalize in
            let s2 := run (h (SelectsRow m)) s1 in
            let s3 := run (h (SelectsRow (row (current s)))) s2 in
            current s3 = current s ∧ tag_list s3 = new)).
Proof.
  intros Hreach.
  split; [apply (reachable_invariant s Hreach)|]. split.
  { intros s0 Hs0. unfold run.
    rewrite clearCurrentIndex_run, setCurrentIndex_run. cbn [fst snd].
    unfold cleared, made_current.
    rewrite decide_False by congruence.
    by destruct (current s0). }
  intros e Hen.
  destruct (reachable_enabled s e Hreach Hen) as (r & im & Hc & He & Him & Ht & Hm).
  pose proof (tag_list_edit_run e s r im He Him) as Hrun. cbv zeta in Hrun.
  cbv zeta. unfold outcome, trace, run.
  rewrite Hrun. cbn [fst snd]. clear Hrun. rewrite Hc.
  set (new := apply_edit e (tag_list s)).
  set (imgs := <[r := mkImage (image_path im) new]> (images s)).
  set (s1 := set_tag_counts (count_tags imgs)
               (set_images imgs (set_tag_list new s))).
  assert (Hr : (r < length (images s))%nat) by (by eapply lookup_lt_Some).
  assert (Hnew : tags_at imgs (RowIndex r) = new).
  { unfold imgs. cbn. by rewrite list_lookup_insert_eq. }
  assert (Hidx : model_index imgs (Z.of_nat r) = RowIndex r).
  { rewrite (model_index_length _ (images s)); [done|].
    unfold imgs. apply length_insert. }
  split; [reflexivity|]. split; [reflexivity|].
  split; [exact Hc|]. split; [reflexivity|]. split; [exact Hnew|].
  intros m. rewrite !select_row_run. cbn [fst snd].
  rewrite made_current_images.
  change (images s1) with imgs. change (row (RowIndex r)) with (Z.of_nat r).
  rewrite Hidx. split; [apply made_current_current|].
  set (s2 := made_current (model_index imgs m) s1).
  unfold made_current at 1.
  destruct (decide (RowIndex r = current s2)) as [E|E].
  - unfold s2, made_current in *.
    destruct (decide (model_index imgs m = current s1)) as [E'|E'].
    + reflexivity.
    + cbn in E. cbn. rewrite <- E. exact Hnew.
  - cbn. unfold s2. rewrite made_current_images. exact Hnew.
Qed.
(** *** Tag edits and the image list *)

Lemma tags_multiset_insert (imgs : list Image) (r : nat) (im im' : Image) :
  imgs !! r = Some im →
  tags_multiset (<[r := im']> imgs) ⊎ list_to_set_disj (image_tags im)
  = tags_multiset imgs ⊎ list_to_set_disj (image_tags im').
Proof.
  revert r. induction imgs as [ | x imgs IH]; intros r Hr; [done|].
  destruct r as [ | r]; simpl in *.
  - injection Hr as ->. multiset_solver.
  - specialize (IH r Hr). multiset_solver.
Qed.

Lemma apply_edit_move_perm (src dst : nat) (l : list string) :
  apply_edit (MoveRow src dst) l ≡ₚ l.
Proof.
  simpl. destruct (l !! src) as [t|] eqn:Hsrc; [|done].
  rewrite <- Permutation_middle, take_drop.
  symmetry. by apply delete_Permutation.
Qed.

(** X8.  An edit of the selected image's tags reaches the tag count table
    within the same dispatch: afterwards the table counts the tags of the
    image list as it is now, which differs from the list before by the old
    tag sequence of the selected image being replaced by the new one.  So
    adding tag [t] raises the count of [t] by one and leaves every other
    count, and moving a row leaves every count. *)
Theorem X8_tag_edit_updates_counts (s : State) (e : TagEdit) :
  reachable s →
  enabled s (EditsTags e) →
  let s' := run (tag_list_edit e) s in
  let before := tags_multiset (images s) in
  (∀ u, tag_counts s' !! u = entry (multiplicity u (tags_multiset (images s'))))
  ∧ tags_multiset (images s') ⊎ list_to_set_disj (tag_list s)
    = before ⊎ list_to_set_disj (apply_edit e (tag_list s))
  ∧ (∀ t, e = AddTag t →
       tag_counts s' !! t = Some (S (multiplicity t before))
       ∧ ∀ u, u ≠ t → tag_counts s' !! u = entry (multiplicity u before))
  ∧ (∀ src dst, e = MoveRow src dst →
       ∀ u, tag_counts s' !! u = entry (multiplicity u before)).
Proof.
  intros Hreach Hen.
  destruct (reachable_enabled s e Hreach Hen)
    as (r & im & Hc & He & Him & Hold & _).
  cbv zeta. unfold run. rewrite (tag_list_edit_run e s r im He Him).
  cbn [fst snd]. cbn.
  set (new := apply_edit e (tag_list s)).
  set (imgs := <[r := mkImage (image_path im) new]> (images s)).
  assert (Hms : tags_multiset imgs ⊎ list_to_set_disj (tag_list s)
                = tags_multiset (images s) ⊎ list_to_set_disj new).
  { rewrite Hold. unfold imgs.
    by rewrite (tags_multiset_insert _ _ _ _ Him). }
  assert (Hm : ∀ u, (multiplicity u (tags_multiset imgs)
                     + multiplicity u (list_to_set_disj (tag_list s))
                     = multiplicity u (tags_multiset (images s))
                       + multiplicity u (list_to_set_disj new))%nat).
  { intros u. by rewrite <- !multiplicity_disj_union, Hms. }
  split; [intros u; apply count_tags_lookup|]. split; [exact Hms|]. split.
  - intros t ->. unfold new in Hm. simpl in Hm. split.
    + rewrite count_tags_lookup. specialize (Hm t).
      rewrite list_to_set_disj_app, multiplicity_disj_union in Hm.
      simpl in Hm. rewrite multiplicity_disj_union, multiplicity_singleton,
        multiplicity_empty, decide_True in Hm by done.
      replace (multiplicity t (tags_multiset imgs))
        with (S (multiplicity t (tags_multiset (images s)))) by lia.
      done.
    + intros u Hu. rewrite count_tags_lookup. specialize (Hm u).
      rewrite list_to_set_disj_app, multiplicity_disj_union in Hm.
      simpl in Hm. rewrite multiplicity_disj_union, multiplicity_singleton,
        multiplicity_empty, decide_False in Hm by done.
      f_equal. lia.
  - intros src dst -> u. rewrite count_tags_lookup. specialize (Hm u).
    unfold new in Hm. rewrite (apply_edit_move_perm src dst) in Hm.
    f_equal. lia.
Qed.

(** X9.  The write-back of an edit touches one entry only: the image list
    keeps its length, every image but the selected one keeps its entry, the
    selected one keeps its path and gets the edited tag sequence; the
    selection, the viewer and the settings are as before. *)
Theorem X9_tag_edit_changes_selected_image_only (s : State) (e : TagEdit) :
  reachable s →
  enabled s (EditsTags e) →
  let s' := run (tag_list_edit e) s in
  length (images s') = length (images s)
  ∧ (∀ j, RowIndex j ≠ current s → images s' !! j = images s !! j)
  ∧ image_path <$> image_at (images s') (current s)
    = image_path <$> image_at (images s) (current s)
  ∧ image_tags <$> image_at (images s') (current s)
    = Some (apply_edit e (tag_list s))
  ∧ current s' = current s
  ∧ viewer_image s' = viewer_image s
  ∧ settings s' = settings s.
Proof.
  intros Hreach Hen.
  destruct (reachable_enabled s e Hreach Hen)
    as (r & im & Hc & He & Him & Hold & _).
  cbv zeta. unfold run. rewrite (tag_list_edit_run e s r im He Him).
  cbn [fst snd]. cbn.
  assert (Hr : (r < length (images s))%nat) by (by eapply lookup_lt_Some).
  split; [apply length_insert|]. split.
  { intros j Hj. apply list_lookup_insert_ne. congruence. }
  rewrite Hc. cbn. rewrite list_lookup_insert_eq by done. by rewrite Him.
Qed.

(** *** From one session to the next *)

Section Resume.

Variable pf : Platform.
Variable scan_directory : Path → list Image.
Variable normalize : string → string.
Hypothesis normalize_idem : ∀ x, normalize (normalize x) = normalize x.

Local Abbreviation load_directory := (load_directory scan_directory).
Local Abbreviation set_font_size := (set_font_size pf).
Local Abbreviation restore := (restore pf scan_directory normalize).
Local Abbreviation resumable := (resumable pf scan_directory normalize).
Local Abbreviation session := (session pf).
Local Abbreviation next_session := (next_session pf).
Local Abbreviation stored_index := (stored_index pf).
Local Abbreviation restore_window := (restore_window pf).

Lemma model_index_minus_one (imgs : list Image) :
  model_index imgs (-1) = InvalidIndex.
Proof. unfold model_index. case_decide; [lia|done]. Qed.

Lemma model_index_zero_invalid (imgs : list Image) (k : Z) :
  model_index imgs 0 = InvalidIndex → model_index imgs k = InvalidIndex.
Proof.
  unfold model_index, in_c_int.
  destruct imgs; simpl; repeat case_decide; try done; lia.
Qed.

Lemma stored_index_ext (s s' : State) :
  settings s' !! "image_index" = settings s !! "image_index" →
  stored_index s' = stored_index s.
Proof. unfold stored_index. by intros ->. Qed.

Lemma stored_index_written (s : State) (z : Z) :
  settings s !! "image_index" = Some (VInt z) → stored_index s = Ok z.
Proof. unfold stored_index. by intros ->. Qed.

Lemma window_outcome_ext (s s' : State) :
  settings s' !! "geometry" = settings s !! "geometry" →
  settings s' !! "window_state" = settings s !! "window_state" →
  window_outcome s' = window_outcome s.
Proof. unfold window_outcome. by intros -> ->. Qed.

Lemma resumable_frame (s s' : State) :
  settings s' !! "geometry" = settings s !! "geometry" →
  settings s' !! "window_state" = settings s !! "window_state" →
  settings s' !! "image_index" = settings s !! "image_index" →
  settings s' !! "directory_path" = settings s !! "directory_path" →
  length (images s') = length (images s) →
  current s' = current s →
  resumable s → resumable s'.
Proof.
  intros Hg Hw Hi Hd Hl Hc (Hwo & (k & Hk & Hcur) & Hdir).
  split; [by rewrite (window_outcome_ext _ _ Hg Hw)|]. split.
  - exists k. rewrite (stored_index_ext _ _ Hi), Hc.
    split; [done|]. by rewrite (model_index_length _ _ _ Hl).
  - rewrite Hd. destruct (settings s !! "directory_path") as [v|].
    + destruct Hdir as (d & -> & Hn & Hlen). exists d. by rewrite Hl.
    + rewrite Hdir in Hl. by apply nil_length_inv.
Qed.

Lemma resumable_made_current (k : Z) (s : State) :
  resumable s → resumable (made_current (model_index (images s) k) s).
Proof.
  intros H. unfold made_current.
  destruct (decide _) as [ | Hne]; [done|].
  destruct H as (Hwo & _ & Hdir). split; [|split].
  - rewrite <- Hwo. apply window_outcome_ext; cbn; by rewrite lookup_insert_ne.
  - destruct (model_index (images s) k) as [ | r] eqn:Hi.
    + exists (-1). split; [|apply model_index_minus_one].
      apply stored_index_written. apply lookup_insert_eq.
    + exists (Z.of_nat r). split.
      * apply stored_index_written. apply lookup_insert_eq.
      * by apply model_index_valid in Hi as [_ ?].
  - cbn. by rewrite lookup_insert_ne.
Qed.

Lemma resumable_load_directory (p : Path) (k k0 : Z) (s : State) :
  window_outcome s = Ok tt →
  normalize (path_str p) = path_str p →
  stored_index s = Ok k0 →
  k = k0 ∨ k = 0 →
  resumable (run (load_directory p k) s).
Proof.
  intros Hwo Hn Hk0 Hk.
  destruct (load_directory_window scan_directory p k s)
    as (_ & _ & _ & _ & _ & Himgs & _).
  split; [|split].
  - rewrite <- Hwo.
    apply window_outcome_ext; by apply load_directory_settings_ne.
  - rewrite load_directory_current, Himgs.
    pose proof (load_directory_image_index scan_directory p k s) as Hidx.
    destruct (model_index (scan_directory p) k) as [ | r] eqn:Ht.
    + destruct (is_valid (current s)).
      * exists (-1). split; [|apply model_index_minus_one].
        by apply stored_index_written.
      * exists k0. split.
        -- rewrite <- Hk0. by apply stored_index_ext.
        -- destruct Hk as [-> | ->]; [exact Ht|].
           by apply model_index_zero_invalid.
    + exists (Z.of_nat r). split.
      * by apply stored_index_written.
      * by apply model_index_valid in Ht as [_ ?].
  - rewrite load_directory_path_stored. exists (path_str p).
    rewrite Himgs. by destruct p.
Qed.

Lemma resumable_set_font_size (s : State) :
  resumable s → resumable (run set_font_size s).
Proof.
  destruct (set_font_size_frame pf s) as (Hi & _).
  destruct (set_font_size_window pf s) as (_ & _ & _ & Hs & _).
  apply resumable_frame; rewrite ?Hs, ?Hi; try done.
  apply set_font_size_current.
Qed.

Lemma resumable_restore_window (s : State) :
  resumable s → resumable (restore_window s).
Proof.
  destruct (restore_window_frame pf s)
    as (Hi & Hc & _ & Hs & _).
  apply resumable_frame; by rewrite ?Hs, ?Hi.
Qed.

Lemma resumable_start (stored : gmap string SVal) (g w : string) (pt : Z) :
  let s0 := fresh_window stored g w pt in
  outcome restore s0 = Ok tt → resumable (run restore s0).
Proof.
  cbv zeta. intros Hok.
  apply restore_ok_inv in Hok as (Hw & k & Hk & Hd & _).
  rewrite (restore_state _ _ _ _ k Hw Hk).
  destruct Hd as [Hd|(d & Hd & Hc)]; rewrite Hd.
  - apply resumable_set_font_size, resumable_restore_window.
    split; [done|]. split; [|by cbn in *; rewrite Hd].
    exists k. split; [done|apply model_index_nil].
  - unfold Path_of. rewrite decide_True by done.
    apply resumable_set_font_size.
    apply (resumable_load_directory _ k k); [|apply normalize_idem| |by left].
    + rewrite <- Hw. apply window_outcome_ext;
        by rewrite restore_window_settings.
    + rewrite <- Hk. apply stored_index_ext.
      by rewrite restore_window_settings.
Qed.

Lemma resumable_handle (choose_directory : option SVal → string)
    (ev : Event) (s : State) :
  resumable s →
  resumable (run (handle pf scan_directory choose_directory normalize ev) s).
Proof.
  intros H. destruct ev as [k|e| | | ].
  - unfold run. rewrite select_row_run. cbn [fst snd].
    by apply resumable_made_current.
  - change (handle _ _ _ _ (EditsTags e)) with (tag_list_edit e).
    destruct (tag_list_edit_frame e s) as [Hc Hl].
    revert H. apply resumable_frame; try done;
      by rewrite tag_list_edit_settings.
  - unfold run, handle. rewrite select_and_load_directory_run. cbv zeta.
    destruct (decide _); cbn [fst snd]; [done|].
    destruct H as (Hwo & (k0 & Hk0 & _) & _).
    apply (resumable_load_directory _ 0 k0); [done|apply normalize_idem|done|].
    by right.
  - by apply resumable_set_font_size.
  - destruct H as (_ & Hidx & Hdir). split; [|split].
    + unfold window_outcome, run, handle, closeEvent. simpl.
      rewrite lookup_insert_ne by done. by rewrite !lookup_insert_eq.
    + destruct Hidx as (k & Hk & Hcur). exists k. split; [|exact Hcur].
      rewrite <- Hk. apply stored_index_ext.
      unfold run, handle, closeEvent. simpl. by rewrite !lookup_insert_ne.
    + unfold run, handle, closeEvent. simpl.
      by rewrite !lookup_insert_ne.
Qed.

Lemma session_resumable (s : State) :
  session scan_directory normalize s → resumable s.
Proof.
  induction 1 as [stored g w pt Hok|choose s ev Hs IH].
  - by apply resumable_start.
  - by apply resumable_handle.
Qed.

(** X10.  What a session leaves in the settings brings the next session
    back to the same place, as long as the directories keep their images:
    the [restore] of a new window over these settings reloads the stored
    directory and makes the same row current (none when none was), and the
    path stays stored as it was.  The normal form of a path is taken to be
    one: [Path(str(Path(x)))] is [Path(x)]. *)
Theorem X10_next_session_resumes (s : State) (g w : string) (pt : Z) :
  session scan_directory normalize s →
  let next := next_session scan_directory normalize s g w pt in
  current next = current s
  ∧ length (images next) = length (images s)
  ∧ settings next !! "directory_path" = settings s !! "directory_path"
  ∧ images next
    = match settings s !! "directory_path" with
      | Some (VStr d) => scan_directory (mkPath d)
      | _ => []
      end.
Proof.
  intros Hs. apply session_resumable in Hs as (Hwo & (k & Hk & Hcur) & Hdir).
  cbv zeta. unfold next_session.
  set (s0 := fresh_window (settings s) g w pt).
  assert (Hw0 : window_outcome s0 = Ok tt) by (by rewrite <- Hwo).
  assert (Hk0 : stored_index s0 = Ok k) by (by rewrite <- Hk).
  rewrite (restore_state _ _ _ _ k Hw0 Hk0).
  change (settings s0) with (settings s).
  destruct (restore_window_frame pf s0)
    as (Hi & Hc & _ & Hst & _).
  destruct (settings s !! "directory_path") as [v|] eqn:Hd.
  - destruct Hdir as (d & -> & Hn & Hlen). unfold Path_of. rewrite Hn.
    set (s1 := run (load_directory (mkPath d) k) (restore_window s0)).
    assert (H1 : current s1 = current s
                 ∧ length (images s1) = length (images s)
                 ∧ settings s1 !! "directory_path" = Some (VStr d)
                 ∧ images s1 = scan_directory (mkPath d)).
    { unfold s1. rewrite load_directory_current, load_directory_path_stored.
      destruct (load_directory_window scan_directory (mkPath d) k
                  (restore_window s0)) as (_ & _ & _ & _ & _ & -> & _).
      rewrite <- Hcur. split; [by apply model_index_length|]. done. }
    case_decide; [|exact H1].
    destruct (set_font_size_frame pf s1) as (-> & _).
    destruct (set_font_size_window pf s1) as (_ & _ & _ & -> & _).
    rewrite set_font_size_current. exact H1.
  - destruct (set_font_size_frame pf (restore_window s0)) as (-> & _).
    destruct (set_font_size_window pf (restore_window s0))
      as (_ & _ & _ & -> & _).
    rewrite set_font_size_current, Hi, Hc, Hst. cbn.
    rewrite Hdir in *. rewrite model_index_nil in Hcur. by rewrite Hd.
Qed.

End Resume.
(** ** Concrete runs *)

Lemma in_c_int_small (z : Z) : (0 ≤ z ≤ 100)%Z → in_c_int z.
Proof. unfold in_c_int. lia. Qed.

(** A stored geometry that is a text ends [restore] at [restoreGeometry];
    the window state is not read. *)
Example restore_text_geometry :
  outcome (restore demo_platform demo_scan demo_normalize) demo_text_geometry
  = Raise TypeError
  ∧ trace (restore demo_platform demo_scan demo_normalize) demo_text_geometry
    = [SettingsContains "geometry" true; SettingsValue "geometry";
       RestoreGeometry (Some (VStr "wide"))].
Proof. split; vm_compute; reflexivity. Qed.

Lemma demo_restored_reachable : reachable demo_restored.
Proof. apply reachable_start. vm_compute. reflexivity. Defined.

Lemma demo_edited_reachable : reachable demo_edited.
Proof.
  apply (reachable_event demo_platform demo_scan demo_pick demo_normalize
           demo_restored (EditsTags (AddTag "bird"))).
  exact demo_restored_reachable.
Defined.

Lemma demo_stray_edit_reachable : reachable demo_stray_edit.
Proof.
  apply (reachable_event demo_platform demo_scan demo_pick demo_normalize
           demo_no_directory (EditsTags (AddTag "bird"))).
  apply reachable_start. vm_compute. reflexivity.
Defined.

(** C1, as the spec has it, fails after a tag was typed with nothing
    selected: the state is reachable, no image is selected, and the tag
    list model is not empty. *)
Lemma C1_counterexample :
  reachable demo_stray_edit
  ∧ current demo_stray_edit = InvalidIndex
  ∧ tag_list demo_stray_edit = ["bird"]
  ∧ tags_at (images demo_stray_edit) (current demo_stray_edit) = []
  ∧ outcome (tag_list_edit (AddTag "bird")) demo_no_directory
    = Raise IndexError.
Proof.
  split; [exact demo_stray_edit_reachable|].
  repeat split; vm_compute; reflexivity.
Qed.

(** C1 at the edited demo window: row 1 is selected and the tag list model
    holds its tags, the added one included. *)
Lemma C1_witness :
  tags_follow_selection demo_edited
  ∧ current demo_edited = RowIndex 1
  ∧ tag_list demo_edited = ["cat"; "bird"].
Proof.
  split.
  - apply (C1_tag_list_follows_selection_and_is_flushed
             demo_platform demo_scan demo_pick demo_normalize demo_edited).
    exact demo_edited_reachable.
  - split; vm_compute; reflexivity.
Defined.

(** C3 at the restored demo window, where row 1 is current: selecting row 0
    loads the tags of image 0. *)
Lemma C3_witness :
  current demo_restored ≠ RowIndex 0
  ∧ tag_list (run (setCurrentIndex (RowIndex 0)) demo_restored)
    = ["cat"; "dog"].
Proof.
  assert (H1 : images demo_restored !! 0%nat
               = Some (mkImage "/pics/a.png" ["cat"; "dog"]))
    by (vm_compute; reflexivity).
  assert (H2 : current demo_restored ≠ RowIndex 0)
    by (vm_compute; discriminate).
  split; [exact H2|].
  exact (proj1 (proj2 (proj2 (proj2 (proj2
    (C3_selection_loads_image_and_tags demo_restored 0
       (mkImage "/pics/a.png" ["cat"; "dog"]) H1 H2)))))).
Defined.

(** C4, as the spec has it, fails where the directory has no such row: a
    load from the dialog of a directory without images selects nothing,
    and so does a restore whose stored index is beyond the last image. *)
Lemma C4_counterexample :
  current (run (select_and_load_directory demo_scan demo_pick_empty
                  demo_normalize) demo_restored) = InvalidIndex
  ∧ images (run (select_and_load_directory demo_scan demo_pick_empty
                   demo_normalize) demo_restored) = []
  ∧ settings demo_stale_index !! "image_index" = Some (VInt 5)
  ∧ outcome (restore demo_platform demo_scan demo_normalize) demo_stale_index
    = Ok tt
  ∧ images (run (restore demo_platform demo_scan demo_normalize)
              demo_stale_index) = demo_images
  ∧ current (run (restore demo_platform demo_scan demo_normalize)
               demo_stale_index) = InvalidIndex.
Proof. repeat split; vm_compute; reflexivity. Qed.

(** C4 at the demo windows: the restore selects the stored row 1, a load
    from the dialog selects row 0. *)
Lemma C4_witness :
  current (run (restore demo_platform demo_scan demo_normalize) demo_window)
  = RowIndex 1
  ∧ current (run (select_and_load_directory demo_scan demo_pick demo_normalize)
               demo_restored) = RowIndex 0.
Proof.
  destruct (C4_directory_load_selects_index demo_platform demo_scan demo_pick
              demo_normalize) as (Hmenu & Hstored).
  assert (Hg : bytes_or_none (settings demo_window !! "geometry") = Ok tt)
    by (vm_compute; reflexivity).
  assert (Hw : bytes_or_none (settings demo_window !! "window_state") = Ok tt)
    by (vm_compute; reflexivity).
  assert (Hi : match settings demo_window !! "image_index" with
               | Some v => py_int demo_platform (Some v) = Ok 1
               | None => 1 = 0
               end) by (vm_compute; reflexivity).
  assert (Hc : in_c_int 1) by (apply in_c_int_small; lia).
  assert (Hd : settings demo_window !! "directory_path" = Some (VStr "/pics"))
    by (vm_compute; reflexivity).
  assert (Hp : demo_pick (initial_directory demo_restored) ≠ "")
    by (vm_compute; discriminate).
  split.
  - destruct (Hstored demo_window "/pics" 1 Hg Hw Hi Hc Hd)
      as (_ & _ & Hrow & _).
    apply Hrow. change (0 ≤ 1 < 2)%Z. lia.
  - destruct (Hmenu demo_restored Hp) as (_ & _ & Hrow & _).
    apply Hrow. vm_compute. discriminate.
Defined.

(** C5, as the spec has it, fails on a first launch: [restore] reads
    [window_state] and [font_size] without a presence check, and the missing
    [font_size] ends it with an exception instead of a default. *)
Lemma C5_counterexample :
  unchecked_reads []
    (trace (restore demo_platform demo_scan demo_normalize) demo_first_launch)
  = ["window_state"; "font_size"]
  ∧ unchecked_reads []
      (trace (restore demo_platform demo_scan demo_normalize)
         demo_first_launch) ≠ []
  ∧ outcome (restore demo_platform demo_scan demo_normalize) demo_first_launch
    = Raise TypeError.
Proof.
  split; [vm_compute; reflexivity|].
  split; [vm_compute; discriminate|vm_compute; reflexivity].
Qed.

(** C5 as amended, on a first launch: no [geometry] is stored and the
    window is shown maximized. *)
Lemma C5_witness :
  ShowMaximized
    ∈ trace (restore demo_platform demo_scan demo_normalize) demo_first_launch
  ∧ maximized (run (restore demo_platform demo_scan demo_normalize)
                 demo_first_launch) = true.
Proof.
  apply (proj1 (proj2 (proj2 (proj2 (proj2
    (C5_reads_behind_presence_checks
       demo_platform demo_scan demo_pick demo_normalize
       demo_first_launch)))))).
  vm_compute. reflexivity.
Defined.

(** C6 at the restored demo window, with a dialog that is cancelled. *)
Lemma C6_witness :
  run (select_and_load_directory demo_scan demo_cancel demo_normalize)
    demo_restored = demo_restored.
Proof.
  apply (C6_cancelled_dialog_is_noop demo_scan demo_cancel demo_normalize
           demo_restored).
  reflexivity.
Defined.

(** C7, as the spec has it, fails for a target index that is no C [int]:
    the load stops once the selection is cleared, with neither the
    selection set nor the viewer page shown. *)
Lemma C7_counterexample :
  outcome (load_directory demo_scan (mkPath "/pics") 4294967296) demo_window
  = Raise OverflowError
  ∧ trace (load_directory demo_scan (mkPath "/pics") 4294967296) demo_window
    = [SettingsSetValue "directory_path" (VStr "/pics");
       ModelLoadDirectory (mkPath "/pics"); ImageListDataChanged; CountTags;
       ClearCurrentIndex]
  ∧ central (run (load_directory demo_scan (mkPath "/pics") 4294967296)
               demo_window) = LoadDirectoryPanel
  ∧ outcome (restore demo_platform demo_scan demo_normalize) demo_huge_index
    = Raise OverflowError.
Proof. repeat split; vm_compute; reflexivity. Qed.

(** C7 at the demo window, with target row 1. *)
Lemma C7_witness :
  in_c_int 1
  ∧ current (run (load_directory demo_scan (mkPath "/pics") 1) demo_window)
    = model_index (demo_scan (mkPath "/pics")) 1
  ∧ central (run (load_directory demo_scan (mkPath "/pics") 1) demo_window)
    = ImageViewerPanel.
Proof.
  assert (H : in_c_int 1) by (apply in_c_int_small; lia).
  split; [exact H|].
  pose proof (C7_load_clears_then_selects_then_shows demo_scan
                (mkPath "/pics") 1 demo_window H) as (_ & _ & Hc & Hp & _).
  split; [exact Hc|exact Hp].
Defined.

(** C9, as the spec has it, fails for a store whose [image_index] is the
    text "first": [restore] raises at that read and does not get to
    [set_font_size]. *)
Lemma C9_counterexample :
  outcome (restore demo_platform demo_scan demo_normalize) demo_bad_index
  = Raise ValueError
  ∧ trace (restore demo_platform demo_scan demo_normalize) demo_bad_index
    = [SettingsContains "geometry" false; ShowMaximized;
       SettingsValue "window_state"; RestoreState None;
       SettingsContains "image_index" true; SettingsValue "image_index"]
  ∧ settings demo_bad_index !! "font_size" = Some (VStr "18").
Proof. repeat split; vm_compute; reflexivity. Qed.

(** C9 on a first launch: no [font_size] is stored and [restore] raises. *)
Lemma C9_witness :
  raises (restore demo_platform demo_scan demo_normalize) demo_first_launch.
Proof.
  apply (proj1 (proj2 (proj2 (proj2
    (C9_restore_raises_on_bad_font_size demo_platform demo_scan demo_normalize
       demo_first_launch)))) TypeError).
  vm_compute. reflexivity.
Defined.

(** X1 at the demo window, whose [restore] returns normally. *)
Lemma X1_witness :
  outcome (restore demo_platform demo_scan demo_normalize) demo_window = Ok tt
  ∧ ∃ z, py_int demo_platform (settings demo_window !! "font_size") = Ok z
         ∧ in_c_int z.
Proof.
  assert (Hok : outcome (restore demo_platform demo_scan demo_normalize)
                  demo_window = Ok tt) by (vm_compute; reflexivity).
  split; [exact Hok|].
  exact (proj2 (proj2 (proj2
    (X1_restore_returns_only_if demo_platform demo_scan demo_normalize
       demo_window Hok)))).
Defined.

(** X2 at a window whose stored [image_index] is the text "first". *)
Lemma X2_witness :
  outcome (restore demo_platform demo_scan demo_normalize) demo_bad_index
  = Raise ValueError
  ∧ images (run (restore demo_platform demo_scan demo_normalize)
              demo_bad_index) = [].
Proof.
  destruct (X2_bad_image_index_aborts_restore demo_platform demo_scan
              demo_normalize demo_bad_index (VStr "first") ValueError)
    as (Ho & _ & _ & _ & Hi & _).
  - vm_compute. reflexivity.
  - vm_compute. reflexivity.
  - vm_compute. reflexivity.
  - vm_compute. reflexivity.
  - split; [exact Ho|exact Hi].
Defined.

(** X3 at the demo window: the stored directory is loaded and shown. *)
Lemma X3_witness :
  central demo_restored = ImageViewerPanel ∧ images demo_restored = demo_images.
Proof.
  assert (Hok : outcome (restore demo_platform demo_scan demo_normalize)
                  demo_window = Ok tt)
    by (vm_compute; reflexivity).
  pose proof (X3_restore_loads_stored_directory demo_platform demo_scan
                demo_normalize demo_window Hok) as H.
  cbv zeta in H.
  assert (Hd : settings demo_window !! "directory_path" = Some (VStr "/pics"))
    by (vm_compute; reflexivity).
  rewrite Hd in H. destruct H as (d & Heq & Hc & Hi & _).
  injection Heq as <-. split; [exact Hc|exact Hi].
Defined.

(** X4 at the restored demo window, which was shown maximized: the next
    window gets its geometry and is maximized again. *)
Lemma X4_witness :
  geometry (next_session demo_platform demo_scan demo_normalize
              (run closeEvent demo_restored) "g1" "w1" 12) = "mg0"
  ∧ maximized (next_session demo_platform demo_scan demo_normalize
                 (run closeEvent demo_restored) "g1" "w1" 12) = true.
Proof.
  destruct (X4_close_then_restore_window demo_platform demo_scan
              demo_normalize demo_restored "g1" "w1" 12 true)
    as (Hg & _ & Hm & _).
  - vm_compute. reflexivity.
  - vm_compute. reflexivity.
  - split; [rewrite Hg; vm_compute; reflexivity|exact Hm].
Defined.

(** X7 at the restored demo window, where row 1 is selected: loading a
    directory without images stores -1. *)
Lemma X7_witness :
  settings (run (load_directory demo_scan (mkPath "/empty") 0) demo_restored)
    !! "image_index" = Some (VInt (-1)).
Proof.
  assert (Hk : in_c_int 0) by (apply in_c_int_small; lia).
  assert (Hscan : demo_scan (mkPath "/empty") = []) by reflexivity.
  assert (Hsync : tags_in_sync demo_restored)
    by (split; vm_compute; reflexivity).
  exact (proj2 (proj2 (proj2 (proj2 (proj2 (proj2 (proj2
    (X7_loading_an_empty_directory demo_scan (mkPath "/empty") 0
       demo_restored Hk Hscan Hsync)))))))).
Defined.

(** X8 at the restored demo window: adding "bird" gives it the count 1. *)
Lemma X8_witness :
  tag_counts demo_edited !! "bird"
  = Some (S (multiplicity "bird" (tags_multiset (images demo_restored)))).
Proof.
  assert (Hen : enabled demo_restored (EditsTags (AddTag "bird")))
    by (vm_compute; eexists; reflexivity).
  exact (proj1 (proj1 (proj2 (proj2
    (X8_tag_edit_updates_counts demo_restored (AddTag "bird")
       demo_restored_reachable Hen))) "bird" eq_refl)).
Defined.

(** X9 at the restored demo window: the edit of image 1 leaves image 0. *)
Lemma X9_witness :
  images demo_edited !! 0%nat = images demo_restored !! 0%nat.
Proof.
  assert (Hen : enabled demo_restored (EditsTags (AddTag "bird")))
    by (vm_compute; eexists; reflexivity).
  apply (proj1 (proj2
    (X9_tag_edit_changes_selected_image_only demo_restored (AddTag "bird")
       demo_restored_reachable Hen))).
  vm_compute. discriminate.
Defined.

Lemma demo_edited_session :
  session demo_platform demo_scan demo_normalize demo_edited.
Proof.
  apply (session_event demo_platform demo_scan demo_normalize demo_pick
           demo_restored (EditsTags (AddTag "bird"))).
  apply session_start. vm_compute. reflexivity.
Defined.

(** X10 after the demo session: the next session has row 1 current again. *)
Lemma X10_witness :
  current (next_session demo_platform demo_scan demo_normalize demo_edited
             "g1" "w1" 12)
  = current demo_edited.
Proof.
  apply (X10_next_session_resumes demo_platform demo_scan demo_normalize).
  - reflexivity.
  - exact demo_edited_session.
Defined.
